(** * server.js: membership-gated broadcast engine

    A shallow embedding of [server.js]: the file-backed user registry
    ([loadUsers], [saveUsers], [findUserById], [addOrUpdateUser]), the
    membership verifier ([isMemberOfAllChannels]), the admin broadcast
    endpoint ([POST /admin/broadcast]) and the scheduled promo loop.

    The program is effectful JavaScript.  It is embedded in a small
    state-and-exception monad [M]: the state [St] carries the process-wide
    [users] array, the data directory and the users file, the trace of
    calls made to the outside world, and a counter of those calls.  The
    outside world (Telegram transport, file-system failures, clock, random
    sources, the JSON codec) is a record of oracles [Platform], each indexed
    by the call counter, so that two calls with the same arguments may be
    answered differently. *)

From Stdlib Require Import List String Ascii ZArith Bool Arith Lia NArith.
From Stdlib.Strings Require Import Byte.
From Stdlib.Strings Require HexString.
Import ListNotations.
Local Open Scope string_scope.

Set Implicit Arguments.
Set Warnings "-register-all".

(* ------------------------------------------------------------------ *)
(** ** JavaScript values *)

(** Values that [JSON.parse] and [express.json()] produce.  Numbers are
    kept as integers: the program only counts and compares identities. *)
Inductive JSON : Type :=
| JNull
| JBool (b : bool)
| JNum (n : Z)
| JStr (s : string)
| JArr (items : list JSON)
| JObj (props : list (string * JSON)).

(** An exception object; the program only ever reads [e.message]. *)
Record exn : Type := Error { message : string }.

Inductive result (A : Type) : Type :=
| Ok (a : A)
| Throw (e : exn).
Arguments Ok {A} a.
Arguments Throw {A} e.

(** [!!s] for a string: the empty string is falsy. *)
Definition truthy_string (s : string) : bool := negb (s =? "").

(** [!!v] for an optional string ([undefined]/[null] is [None]). *)
Definition truthy_opt (o : option string) : bool :=
  match o with
  | Some s => truthy_string s
  | None => false
  end.

(** [!!v] for a JSON value. *)
Definition truthy (v : JSON) : bool :=
  match v with
  | JNull => false
  | JBool b => b
  | JNum n => negb (n =? 0)%Z
  | JStr s => truthy_string s
  | JArr _ => true
  | JObj _ => true
  end.

(** [a || b] on optional strings, as in [from.username || null]. *)
Definition js_or (a b : option string) : option string :=
  if truthy_opt a then a else b.

(* ------------------------------------------------------------------ *)
(** ** Data model *)

(** One element of the [users] array:
    [{ telegram_id, username, first_name, last_name, token, last_seen }].
    [last_seen] is the instant (milliseconds since the epoch) that the
    stored [toISOString()] rendering denotes. *)
Record User : Type := mkUser {
  telegram_id : Z;
  username : option string;
  first_name : option string;
  last_name : option string;
  token : string;
  last_seen : Z
}.

(** [ctx.from]: the sender of an update. *)
Record From : Type := mkFrom {
  from_id : Z;
  from_username : option string;
  from_first_name : option string;
  from_last_name : option string
}.

(** The object resolved by [bot.telegram.getChatMember]. *)
Record ChatMember : Type := mkChatMember { status : option string }.

Inductive Button : Type :=
| WebAppButton (text url : string)
| UrlButton (text url : string)
| CallbackButton (text data : string).

(** The third argument of [bot.telegram.sendMessage]. *)
Record SendExtra : Type := mkExtra {
  disable_notification : bool;
  inline_keyboard : list (list Button)
}.

(** The users file as the process finds it. *)
Inductive file_state : Type :=
| Missing
| Unreadable
| Content (raw : string).

(** Calls the program makes to the outside world, in the order made. *)
Inductive event : Type :=
| EvGetChatMember (ch : string) (tgId : Z)
| EvSendMessage (chat : Z) (text : JSON) (extra : SendExtra)
| EvConsoleError (args : list JSON)
| EvMkdir
| EvWriteFile (data : string).

(** Environment variables, after the defaults of lines 10-17;
    [REQUIRED_CHANNELS] is the list left by the split, trim and filter of
    lines 11-12. *)
Record Config : Type := mkConfig {
  REQUIRED_CHANNELS : list string;
  WEB_APP_URL : string;
  CLOTHING_LINK : string;
  TECH_LINK : string;
  PROMO_INTERVAL_MINUTES : Z;
  ADMIN_TOKEN : string
}.

(** The outside world.  The first argument of an oracle is the number of
    calls made so far.  When [fs_writeFileSync] raises,
    [fs_written_before_failure] tells what became of the file: [None], it
    could not be opened and is as it was; [Some n], it was opened, which
    truncates it, and the first [n] characters were written. *)
Record Platform : Type := mkPlatform {
  tg_getChatMember : nat -> string -> Z -> result (option ChatMember);
  tg_sendMessage : nat -> Z -> JSON -> SendExtra -> result unit;
  fs_mkdirSync : nat -> result unit;
  fs_writeFileSync : nat -> string -> result unit;
  fs_written_before_failure : nat -> string -> option nat;
  crypto_randomByte : nat -> nat -> byte;
  Date_now : nat -> Z;
  Math_random : nat -> nat;
  JSON_parse : string -> result JSON;
  JSON_stringify : list User -> string
}.

(** Process state. *)
Record St : Type := mkSt {
  users : list User;
  dir_exists : bool;
  file : file_state;
  trace : list event;
  clock : nat
}.

(* ------------------------------------------------------------------ *)
(** ** The monad *)

Definition M (A : Type) : Type := St -> result A * St.

Definition ret {A} (a : A) : M A := fun s => (Ok a, s).

Definition throw {A} (e : exn) : M A := fun s => (Throw e, s).

Definition bind {A B} (m : M A) (k : A -> M B) : M B :=
  fun s =>
    match m s with
    | (Ok a, s') => k a s'
    | (Throw e, s') => (Throw e, s')
    end.

(** [try { m } catch (e) { h e }] *)
Definition try_catch {A} (m : M A) (h : exn -> M A) : M A :=
  fun s =>
    match m s with
    | (Ok a, s') => (Ok a, s')
    | (Throw e, s') => h e s'
    end.

Notation "x <- m ;; k" := (bind m (fun x => k))
  (at level 61, m at next level, right associativity).
Notation "m ;;; k" := (bind m (fun _ => k))
  (at level 61, right associativity).

(** Append one call to the trace. *)
Definition emit (ev : event) (s : St) : St :=
  mkSt (users s) (dir_exists s) (file s) (trace s ++ [ev]) (clock s).

(** One more oracle has been consulted. *)
Definition advance (s : St) : St :=
  mkSt (users s) (dir_exists s) (file s) (trace s) (S (clock s)).

Definition set_users (us : list User) (s : St) : St :=
  mkSt us (dir_exists s) (file s) (trace s) (clock s).

Definition set_dir (b : bool) (s : St) : St :=
  mkSt (users s) b (file s) (trace s) (clock s).

Definition set_file (f : file_state) (s : St) : St :=
  mkSt (users s) (dir_exists s) f (trace s) (clock s).

(** [console.error(...args)] *)
Definition console_error (args : list JSON) : M unit :=
  fun s => (Ok tt, emit (EvConsoleError args) s).

(* ------------------------------------------------------------------ *)
(** ** Pure helpers *)

(** [Buffer.toString('hex')]: two lowercase digits per byte. *)
Definition hex_digit (n : N) : ascii :=
  match n with
  | 0%N => "0" | 1%N => "1" | 2%N => "2" | 3%N => "3"
  | 4%N => "4" | 5%N => "5" | 6%N => "6" | 7%N => "7"
  | 8%N => "8" | 9%N => "9" | 10%N => "a" | 11%N => "b"
  | 12%N => "c" | 13%N => "d" | 14%N => "e" | _ => "f"
  end%char.

Definition hex_of_byte (b : byte) : string :=
  let n := Byte.to_N b in
  String (hex_digit (n / 16)) (String (hex_digit (n mod 16)) EmptyString).

Fixpoint toString_hex (bs : list byte) : string :=
  match bs with
  | [] => EmptyString
  | b :: rest => hex_of_byte b ++ toString_hex rest
  end.

(** [users.find(u => u.telegram_id === tgId)] *)
Definition find_user (tgId : Z) (us : list User) : option User :=
  find (fun u => (telegram_id u =? tgId)%Z) us.

(** Assignment to the fields of the object that [find_user] returned: the
    array keeps its length and order, the first element whose id is [tgId]
    becomes [u']. *)
Fixpoint assign_found (tgId : Z) (u' : User) (us : list User) : list User :=
  match us with
  | [] => []
  | u :: rest =>
      if (telegram_id u =? tgId)%Z then u' :: rest
      else u :: assign_found tgId u' rest
  end.

(** [chRaw.startsWith('@') ? chRaw : `@${chRaw}`] *)
Definition channel_handle (chRaw : string) : string :=
  if String.prefix "@" chRaw then chRaw else "@" ++ chRaw.

(** [status === 'left' || status === 'kicked' || !status] *)
Definition status_rejected (st : option string) : bool :=
  match st with
  | Some s => (s =? "left") || (s =? "kicked") || negb (truthy_string s)
  | None => true
  end.

(** [member && member.status] *)
Definition member_status (member : option ChatMember) : option string :=
  match member with
  | Some m => status m
  | None => None
  end.

Definition PROMO_MESSAGES : list string :=
  [ "🔥 Новая подборка техники — заходи в каталог!";
    "🧥 Скидки на одежду у наших спонсоров — смотри каталог!";
    "⚡ Игра бросает вызов — побей рекорд и получи скидку!" ].

(* ------------------------------------------------------------------ *)
(** ** HTTP request and response *)

(** A parsed query-string value: a string, or an array/object, which is
    never [===] to a string. *)
Inductive QueryValue : Type :=
| QString (s : string)
| QNested.

(** [req.body] after [express.json()]: an object or an array when a JSON
    body was parsed; when none was, [{}] under express 4 and [undefined]
    under express 5. *)
Inductive ReqBody : Type :=
| BodyObject (props : list (string * JSON))
| BodyArray (items : list JSON)
| BodyUndefined.

Record Request : Type := mkRequest {
  header_x_admin_token : option string;
  query_admin_token : option QueryValue;
  req_body : ReqBody
}.

Inductive Response : Type :=
| mkResponse (code : nat) (payload : JSON).

Fixpoint get_prop (k : string) (props : list (string * JSON)) : option JSON :=
  match props with
  | [] => None
  | (k', v) :: rest => if k' =? k then Some v else get_prop k rest
  end.

(** The property [text] of [req.body]; there is none to read when the
    body is [undefined]. *)
Definition body_text (b : ReqBody) : option JSON :=
  match b with
  | BodyObject props => get_prop "text" props
  | BodyArray _ => None
  | BodyUndefined => None
  end.

(** The [TypeError] of destructuring [undefined]. *)
Definition cannot_destructure : exn :=
  Error "Cannot destructure property 'text' of 'req.body' as it is undefined.".

(** [req.headers['x-admin-token'] || req.query.admin_token] *)
Definition provided_token (req : Request) : option QueryValue :=
  match header_x_admin_token req with
  | Some h => if truthy_string h then Some (QString h) else query_admin_token req
  | None => query_admin_token req
  end.

(** [provided !== expected] for a string [expected] *)
Definition strict_neq (provided : option QueryValue) (expected : string) : bool :=
  match provided with
  | Some (QString s) => negb (s =? expected)
  | _ => true
  end.

(** Outcome of one iteration of a fan-out loop. *)
Inductive outcome : Type :=
| Skipped
| Sent
| Failed.

(* ------------------------------------------------------------------ *)
(** ** The program *)

Section Server.

Variable P : Platform.
Variable cfg : Config.

(** *** Calls to the outside world *)

Definition getChatMember (ch : string) (tgId : Z) : M (option ChatMember) :=
  fun s =>
    (tg_getChatMember P (clock s) ch tgId,
     advance (emit (EvGetChatMember ch tgId) s)).

Definition sendMessage (chat : Z) (text : JSON) (extra : SendExtra) : M unit :=
  fun s =>
    (tg_sendMessage P (clock s) chat text extra,
     advance (emit (EvSendMessage chat text extra) s)).

Definition existsSync_DATA_DIR : M bool :=
  fun s => (Ok (dir_exists s), s).

Definition mkdirSync_DATA_DIR : M unit :=
  fun s =>
    let s' := advance (emit EvMkdir s) in
    match fs_mkdirSync P (clock s) with
    | Ok _ => (Ok tt, set_dir true s')
    | Throw e => (Throw e, s')
    end.

Definition readFileSync_USERS_FILE : M string :=
  fun s =>
    match file s with
    | Missing => (Throw (Error "ENOENT: no such file or directory"), s)
    | Unreadable => (Throw (Error "EACCES: permission denied"), s)
    | Content raw => (Ok raw, s)
    end.

Definition writeFileSync_USERS_FILE (data : string) : M unit :=
  fun s =>
    let s' := advance (emit (EvWriteFile data) s) in
    match fs_writeFileSync P (clock s) data with
    | Ok _ => (Ok tt, set_file (Content data) s')
    | Throw e =>
        match fs_written_before_failure P (clock s) data with
        | None => (Throw e, s')
        | Some n => (Throw e, set_file (Content (substring 0 n data)) s')
        end
    end.

Definition parse (raw : string) : M JSON :=
  fun s => (JSON_parse P raw, s).

(** [crypto.randomBytes(n)] *)
Definition randomBytes (n : nat) : M (list byte) :=
  fun s => (Ok (map (crypto_randomByte P (clock s)) (seq 0 n)), advance s).

(** [new Date()] *)
Definition new_Date : M Z :=
  fun s => (Ok (Date_now P (clock s)), advance s).

(** [Math.floor(Math.random() * n)] for [n > 0] *)
Definition random_index (n : nat) : M nat :=
  fun s => (Ok (Math_random P (clock s) mod n), advance s).

Definition read_users : M (list User) :=
  fun s => (Ok (users s), s).

Definition write_users (us : list User) : M unit :=
  fun s => (Ok tt, set_users us s).

(** *** User registry (lines 27-72) *)

Definition ensureDataDir : M unit :=
  ex <- existsSync_DATA_DIR ;;
  if negb ex then mkdirSync_DATA_DIR else ret tt.

Definition loadUsers : M JSON :=
  ensureDataDir ;;;
  try_catch
    (raw <- readFileSync_USERS_FILE ;;
     parse raw)
    (fun _ => ret (JArr [])).

Definition saveUsers (us : list User) : M unit :=
  ensureDataDir ;;;
  writeFileSync_USERS_FILE (JSON_stringify P us).

Definition findUserById (tgId : Z) : M (option User) :=
  us <- read_users ;;
  ret (find_user tgId us).

Definition addOrUpdateUser (from : From) : M User :=
  let tgId := from_id from in
  found <- findUserById tgId ;;
  match found with
  | None =>
      bytes <- randomBytes 10 ;;
      now <- new_Date ;;
      let u := mkUser tgId
                 (js_or (from_username from) None)
                 (js_or (from_first_name from) None)
                 (js_or (from_last_name from) None)
                 (toString_hex bytes)
                 now in
      us <- read_users ;;
      write_users (us ++ [u]) ;;;
      us' <- read_users ;;
      saveUsers us' ;;;
      ret u
  | Some u =>
      now <- new_Date ;;
      let u' := mkUser (telegram_id u)
                  (js_or (from_username from) (username u))
                  (js_or (from_first_name from) (first_name u))
                  (js_or (from_last_name from) (last_name u))
                  (token u)
                  now in
      us <- read_users ;;
      write_users (assign_found tgId u' us) ;;;
      us' <- read_users ;;
      saveUsers us' ;;;
      ret u'
  end.

(** *** Membership verifier (lines 81-97) *)

(** One iteration of the loop body: [Some b] is [return b], [None] falls
    through to the next channel. *)
Definition check_channel (chRaw : string) (tgId : Z) : M (option bool) :=
  let ch := channel_handle chRaw in
  try_catch
    (member <- getChatMember ch tgId ;;
     let status := member_status member in
     if status_rejected status then ret (Some false) else ret None)
    (fun e =>
       console_error
         [JStr "getChatMember error for"; JStr ch; JStr (message e)] ;;;
       ret (Some false)).

Fixpoint check_channels (chs : list string) (tgId : Z) : M bool :=
  match chs with
  | [] => ret true
  | chRaw :: rest =>
      r <- check_channel chRaw tgId ;;
      match r with
      | Some b => ret b
      | None => check_channels rest tgId
      end
  end.

Definition isMemberOfAllChannels (tgId : Z) : M bool :=
  if (List.length (REQUIRED_CHANNELS cfg) =? 0)%nat then ret true
  else check_channels (REQUIRED_CHANNELS cfg) tgId.

(** *** Admin broadcast (lines 164-193) *)

Definition broadcast_extra (user : User) : SendExtra :=
  mkExtra false
    [ [ WebAppButton "Играть" (WEB_APP_URL cfg ++ "?token=" ++ token user) ];
      [ UrlButton "Каталог одежды" (CLOTHING_LINK cfg);
        UrlButton "Купить технику" (TECH_LINK cfg) ] ].

(** The body of the [for] loop, lines 174-190. *)
Definition broadcast_step (user : User) (text : JSON) : M outcome :=
  try_catch
    (subscribed <- try_catch (isMemberOfAllChannels (telegram_id user))
                             (fun _ => ret false) ;;
     if negb subscribed then ret Skipped
     else
       sendMessage (telegram_id user) text (broadcast_extra user) ;;;
       ret Sent)
    (fun e =>
       console_error
         [JStr "broadcast failed to"; JNum (telegram_id user);
          JStr (message e)] ;;;
       ret Failed).

Fixpoint broadcast_loop (usersCopy : list User) (text : JSON)
         (sent failed : nat) : M (nat * nat) :=
  match usersCopy with
  | [] => ret (sent, failed)
  | user :: rest =>
      o <- broadcast_step user text ;;
      match o with
      | Skipped => broadcast_loop rest text sent failed
      | Sent => broadcast_loop rest text (S sent) failed
      | Failed => broadcast_loop rest text sent (S failed)
      end
  end.

Definition forbidden : Response :=
  mkResponse 403 (JObj [("error", JStr "forbidden")]).

Definition text_required : Response :=
  mkResponse 400 (JObj [("error", JStr "text required")]).

Definition broadcast_ok (sent failed : nat) : Response :=
  mkResponse 200
    (JObj [("ok", JBool true);
           ("sent", JNum (Z.of_nat sent));
           ("failed", JNum (Z.of_nat failed))]).

(** [const { text } = req.body], line 167 *)
Definition destructure_text (b : ReqBody) : M (option JSON) :=
  match b with
  | BodyUndefined => throw cannot_destructure
  | _ => ret (body_text b)
  end.

Definition admin_broadcast (req : Request) : M Response :=
  let provided := provided_token req in
  if negb (truthy_string (ADMIN_TOKEN cfg))
     || strict_neq provided (ADMIN_TOKEN cfg)
  then ret forbidden
  else
    found <- destructure_text (req_body req) ;;
    match found with
    | None => ret text_required
    | Some text =>
        if negb (truthy text) then ret text_required
        else
          usersCopy <- read_users ;;
          counts <- broadcast_loop usersCopy text 0 0 ;;
          ret (broadcast_ok (fst counts) (snd counts))
    end.

(** *** Scheduled promo (lines 212-239) *)

Definition promo_extra (u : User) : SendExtra :=
  mkExtra true
    [ [ WebAppButton "Играть" (WEB_APP_URL cfg ++ "?token=" ++ token u) ];
      [ UrlButton "Каталог одежды" (CLOTHING_LINK cfg);
        UrlButton "Купить технику" (TECH_LINK cfg) ] ].

Definition promo_step (u : User) (text : JSON) : M outcome :=
  try_catch
    (subscribed <- try_catch (isMemberOfAllChannels (telegram_id u))
                             (fun _ => ret false) ;;
     if negb subscribed then ret Skipped
     else
       sendMessage (telegram_id u) text (promo_extra u) ;;;
       ret Sent)
    (fun e =>
       console_error
         [JStr "promo send failed to"; JNum (telegram_id u);
          JStr (message e)] ;;;
       ret Failed).

Fixpoint promo_loop (us : list User) (text : JSON) : M unit :=
  match us with
  | [] => ret tt
  | u :: rest =>
      promo_step u text ;;;
      promo_loop rest text
  end.

(** The timer is armed only when this holds (line 217). *)
Definition promo_armed : bool :=
  (0 <? PROMO_INTERVAL_MINUTES cfg)%Z && truthy_string (ADMIN_TOKEN cfg).

(** One firing of the timer. *)
Definition promo_tick : M unit :=
  i <- random_index (List.length PROMO_MESSAGES) ;;
  let text := JStr (nth i PROMO_MESSAGES "") in
  us <- read_users ;;
  promo_loop us text.

End Server.

(* ------------------------------------------------------------------ *)
(** ** Vocabulary of the properties *)

(** What a trace says was done. *)
Definition checks (tr : list event) : list (string * Z) :=
  flat_map (fun ev => match ev with
                      | EvGetChatMember ch tgId => [(ch, tgId)]
                      | _ => []
                      end) tr.

Definition sends (tr : list event) : list (Z * JSON * SendExtra) :=
  flat_map (fun ev => match ev with
                      | EvSendMessage chat text extra => [(chat, text, extra)]
                      | _ => []
                      end) tr.

Definition writes (tr : list event) : list string :=
  flat_map (fun ev => match ev with
                      | EvWriteFile data => [data]
                      | _ => []
                      end) tr.

Definition console_errors (tr : list event) : list (list JSON) :=
  flat_map (fun ev => match ev with
                      | EvConsoleError args => [args]
                      | _ => []
                      end) tr.

(** The registry and its backing store are the same in [s'] as in [s], and
    no write of the users file was attempted in between. *)
Definition registry_untouched (s s' : St) : Prop :=
  users s' = users s /\
  file s' = file s /\
  dir_exists s' = dir_exists s /\
  writes (trace s') = writes (trace s).

Definition is_lower_hex (c : ascii) : bool :=
  let n := nat_of_ascii c in
  ((48 <=? n)%nat && (n <=? 57)%nat) || ((97 <=? n)%nat && (n <=? 102)%nat).

Definition lower_hex_string (s : string) : bool :=
  forallb is_lower_hex (list_ascii_of_string s).

(** The statuses the comment on line 88 lists as subscribed. *)
Definition counts_as_member (st : option string) : bool :=
  match st with
  | Some s =>
      (s =? "member") || (s =? "creator") || (s =? "administrator")
      || (s =? "restricted")
  | None => false
  end.

(** A status that is absent: [undefined], [null] or the empty string. *)
Definition absent (st : option string) : bool :=
  match st with
  | Some s => s =? ""
  | None => true
  end.

(** A channel check fails: the transport raised, or the status is absent,
    [left] or [kicked]. *)
Definition check_fails (r : result (option ChatMember)) : bool :=
  match r with
  | Throw _ => true
  | Ok member =>
      let st := member_status member in
      absent st
      || match st with
         | Some s => (s =? "left") || (s =? "kicked")
         | None => false
         end
  end.

Definition outcome_eqb (a b : outcome) : bool :=
  match a, b with
  | Skipped, Skipped => true
  | Sent, Sent => true
  | Failed, Failed => true
  | _, _ => false
  end.

Definition tally (o : outcome) (outs : list outcome) : nat :=
  List.length (filter (outcome_eqb o) outs).

Definition outcome_eq_dec (a b : outcome) : {a = b} + {a <> b}.
Proof. decide equality. Defined.

Section Properties.

Variable P : Platform.
Variable cfg : Config.

(** The record line 53-60 builds for an unseen sender, from state [s]. *)
Definition created_user (from : From) (s : St) : User :=
  mkUser (from_id from)
    (js_or (from_username from) None)
    (js_or (from_first_name from) None)
    (js_or (from_last_name from) None)
    (toString_hex (map (crypto_randomByte P (clock s)) (seq 0 10)))
    (Date_now P (S (clock s))).

(** The record lines 65-68 leave behind for a known sender. *)
Definition updated_user (from : From) (u : User) (s : St) : User :=
  mkUser (telegram_id u)
    (js_or (from_username from) (username u))
    (js_or (from_first_name from) (first_name u))
    (js_or (from_last_name from) (last_name u))
    (token u)
    (Date_now P (clock s)).

Definition upserted_user (from : From) (s : St) : User :=
  match find_user (from_id from) (users s) with
  | None => created_user from s
  | Some u => updated_user from u s
  end.

Definition upserted_users (from : From) (s : St) : list User :=
  match find_user (from_id from) (users s) with
  | None => users s ++ [created_user from s]
  | Some u => assign_found (from_id from) (updated_user from u s) (users s)
  end.

(** The state in which [addOrUpdateUser] calls [saveUsers]. *)
Definition before_save (from : From) (s : St) : St :=
  set_users (upserted_users from s)
    (match find_user (from_id from) (users s) with
     | None => advance (advance s)
     | Some _ => advance s
     end).

(** The upsert of [from] in state [s] finds the store unwritable: the data
    directory cannot be created, or the file cannot be written; [e] is the
    exception the file system raises. *)
Definition store_write_fails (from : From) (s : St) (e : exn) : Prop :=
  let b := before_save from s in
  let data := JSON_stringify P (upserted_users from s) in
  if dir_exists s
  then fs_writeFileSync P (clock b) data = Throw e
  else fs_mkdirSync P (clock b) = Throw e \/
       (fs_mkdirSync P (clock b) = Ok tt /\
        fs_writeFileSync P (S (clock b)) data = Throw e).

(** A run of interactions, each an upsert whose result (record or
    exception) goes to its own handler. *)
Fixpoint run_upserts (froms : list From) (s : St) : St :=
  match froms with
  | [] => s
  | f :: rest => run_upserts rest (snd (addOrUpdateUser P f s))
  end.


(** The request presents the configured, non-empty admin token. *)
Definition authorized (req : Request) : Prop :=
  ADMIN_TOKEN cfg <> "" /\
  provided_token req = Some (QString (ADMIN_TOKEN cfg)).

(** The wall clock never runs backwards. *)
Definition clock_monotone : Prop :=
  forall i j : nat, (i <= j)%nat -> (Date_now P i <= Date_now P j)%Z.

(** What every later upsert keeps true of an identity already in the
    registry: its record is found, carries token [t], and was last seen
    no earlier than [since] and no later than now. *)
Definition remembered (tgId : Z) (t : string) (since : Z) (s : St) : Prop :=
  exists u,
    find_user tgId (users s) = Some u /\
    token u = t /\
    (clock_monotone ->
     (since <= last_seen u)%Z /\ (last_seen u <= Date_now P (clock s))%Z).

(** What happens to one recipient of an admin broadcast, in the words of
    the broadcast engine's contract: a fresh membership check; a
    non-member is skipped; a member is sent the text with a keyboard that
    embeds the member's token; a send that raises is logged with the
    recipient's identity. *)
Inductive delivery (text : JSON) (u : User) : St -> outcome -> St -> Prop :=
| delivery_skipped s s1 :
    isMemberOfAllChannels P cfg (telegram_id u) s = (Ok false, s1) ->
    delivery text u s Skipped s1
| delivery_sent s s1 s2 :
    isMemberOfAllChannels P cfg (telegram_id u) s = (Ok true, s1) ->
    sendMessage P (telegram_id u) text (broadcast_extra cfg u) s1
      = (Ok tt, s2) ->
    delivery text u s Sent s2
| delivery_failed s s1 s2 e :
    isMemberOfAllChannels P cfg (telegram_id u) s = (Ok true, s1) ->
    sendMessage P (telegram_id u) text (broadcast_extra cfg u) s1
      = (Throw e, s2) ->
    delivery text u s Failed
      (emit (EvConsoleError [JStr "broadcast failed to";
                             JNum (telegram_id u); JStr (message e)]) s2).

(** The recipients a pass tried to deliver to. *)
Fixpoint attempted (us : list User) (outs : list outcome) : list User :=
  match us, outs with
  | u :: us', Skipped :: outs' => attempted us' outs'
  | u :: us', _ :: outs' => u :: attempted us' outs'
  | _, _ => []
  end.

(** A full pass: the recipients one after the other, in list order, each
    starting where the previous one ended. *)
Inductive pass (text : JSON) : list User -> St -> list outcome -> St -> Prop :=
| pass_done s : pass text [] s [] s
| pass_next u rest s o s1 outs s2 :
    delivery text u s o s1 ->
    pass text rest s1 outs s2 ->
    pass text (u :: rest) s (o :: outs) s2.

End Properties.

(* ------------------------------------------------------------------ *)
(** ** Concrete worlds *)

(** [JSON.parse] on the three documents used below; any other text is
    rejected here. *)
Definition parse_document (raw : string) : result JSON :=
  if raw =? "[]" then Ok (JArr [])
  else if raw =? "{}" then Ok (JObj [])
  else if raw =? "null" then Ok JNull
  else Throw (Error "Unexpected token in JSON").

(** A rendering of the array that keeps the tokens. *)
Definition render_users (us : list User) : string :=
  "[" ++ String.concat "," (map token us) ++ "]".

Definition sample_byte (c i : nat) : byte :=
  match Byte.of_N (N.of_nat ((c * 31 + i * 7) mod 256)) with
  | Some b => b
  | None => x00
  end.

(** User 3 has left the channels; Telegram refuses to deliver to user 2;
    the disk works. *)
Definition world : Platform :=
  mkPlatform
    (fun _ _ tgId =>
       if (tgId =? 3)%Z then Ok (Some (mkChatMember (Some "left")))
       else Ok (Some (mkChatMember (Some "member"))))
    (fun _ chat _ _ =>
       if (chat =? 2)%Z
       then Throw (Error "403: Forbidden: bot was blocked by the user")
       else Ok tt)
    (fun _ => Ok tt)
    (fun _ _ => Ok tt)
    (fun _ _ => None)
    sample_byte
    (fun c => 1700000000000 + Z.of_nat c)%Z
    (fun c => c)
    parse_document
    render_users.

(** As [world], on a read-only disk. *)
Definition world_readonly_disk : Platform :=
  mkPlatform
    (tg_getChatMember world)
    (tg_sendMessage world)
    (fun _ => Throw (Error "EROFS: read-only file system, mkdir"))
    (fun _ _ => Throw (Error "EROFS: read-only file system, open"))
    (fun _ _ => None)
    sample_byte
    (Date_now world)
    (Math_random world)
    parse_document
    render_users.

(** As [world], on a full disk: the file is opened, and so emptied, and
    nothing can be written. *)
Definition world_full_disk : Platform :=
  mkPlatform
    (tg_getChatMember world)
    (tg_sendMessage world)
    (fs_mkdirSync world)
    (fun _ _ => Throw (Error "ENOSPC: no space left on device, write"))
    (fun _ _ => Some 0)
    sample_byte
    (Date_now world)
    (Math_random world)
    parse_document
    render_users.

(** As [world], with a wall clock that is set back between calls. *)
Definition world_clock_set_back : Platform :=
  mkPlatform
    (tg_getChatMember world)
    (tg_sendMessage world)
    (fs_mkdirSync world)
    (fs_writeFileSync world)
    (fs_written_before_failure world)
    sample_byte
    (fun c => 1700000000000 - 60000 * Z.of_nat c)%Z
    (Math_random world)
    parse_document
    render_users.

(** As [world], but the second channel answers with a status outside the
    six documented ones. *)
Definition world_unknown_status : Platform :=
  mkPlatform
    (fun _ ch _ =>
       if ch =? "@sponsor1" then Ok (Some (mkChatMember (Some "banned")))
       else Ok (Some (mkChatMember (Some "member"))))
    (tg_sendMessage world)
    (fs_mkdirSync world)
    (fs_writeFileSync world)
    (fs_written_before_failure world)
    sample_byte
    (Date_now world)
    (Math_random world)
    parse_document
    render_users.

(** As [world], but the bot has no access to the second channel. *)
Definition world_no_access : Platform :=
  mkPlatform
    (fun _ ch _ =>
       if ch =? "@sponsor1"
       then Throw (Error "400: Bad Request: chat not found")
       else Ok (Some (mkChatMember (Some "member"))))
    (tg_sendMessage world)
    (fs_mkdirSync world)
    (fs_writeFileSync world)
    (fs_written_before_failure world)
    sample_byte
    (Date_now world)
    (Math_random world)
    parse_document
    render_users.

Definition config : Config :=
  mkConfig ["mychannel"; "@sponsor1"; "sponsor2"]
           "https://game.example.com"
           "https://example.com/clothing"
           "https://example.com/tech"
           1440
           "s3cret".

(** The same deployment with [ADMIN_TOKEN] unset. *)
Definition config_no_admin : Config :=
  mkConfig ["mychannel"; "@sponsor1"; "sponsor2"]
           "https://game.example.com"
           "https://example.com/clothing"
           "https://example.com/tech"
           1440
           "".

Definition alice : User :=
  mkUser 1 (Some "alice") (Some "Alice") None "00112233445566778899"
         1699999990000.
Definition bob : User :=
  mkUser 2 (Some "bob") (Some "Bob") None "aabbccddeeff00112233"
         1699999991000.
Definition carol : User :=
  mkUser 3 None (Some "Carol") None "0123456789abcdef0123"
         1699999992000.

Definition started (us : list User) (f : file_state) : St :=
  mkSt us true f [] 0.

Definition from_alice : From := mkFrom 1 (Some "alice") (Some "Alice") None.
Definition from_dave : From := mkFrom 4 (Some "dave") None None.

Definition sale_request : Request :=
  mkRequest (Some "s3cret") None (BodyObject [("text", JStr "Sale!")]).
Definition wrong_token_request : Request :=
  mkRequest (Some "guess") (Some (QString "s3cret"))
            (BodyObject [("text", JStr "Sale!")]).
Definition bodyless_request : Request :=
  mkRequest (Some "s3cret") None BodyUndefined.

(* ------------------------------------------------------------------ *)
(** ** Further vocabulary *)

(** The same deployment with no required channel. *)
Definition config_open : Config :=
  mkConfig []
           "https://game.example.com"
           "https://example.com/clothing"
           "https://example.com/tech"
           1440
           "s3cret".

(** The recipients of a pass that ended in outcome [o]. *)
Fixpoint with_outcome (o : outcome) (us : list User) (outs : list outcome)
  : list User :=
  match us, outs with
  | u :: us', o' :: outs' =>
      if outcome_eqb o o' then u :: with_outcome o us' outs'
      else with_outcome o us' outs'
  | _, _ => []
  end.

(** The identities named by the [broadcast failed to] lines of a trace. *)
Definition logged_failures (tr : list event) : list Z :=
  flat_map (fun ev => match ev with
                      | EvConsoleError (JStr tag :: JNum tgId :: _) =>
                          if tag =? "broadcast failed to" then [tgId] else []
                      | _ => []
                      end) tr.

(** [mainMenuInline(token)], lines 100-108. *)
Definition mainMenuInline (cfg : Config) (token : string)
  : list (list Button) :=
  let playUrl :=
    if truthy_string (WEB_APP_URL cfg)
    then WEB_APP_URL cfg ++ "?token=" ++ token
    else "/?token=" ++ token in
  [ [ WebAppButton "Играть" playUrl ];
    [ CallbackButton "Каталог одежды" "catalog";
      CallbackButton "Купить технику" "tech" ] ].

(** The same deployment with [WEB_APP_URL] unset. *)
Definition config_no_url : Config :=
  mkConfig ["mychannel"; "@sponsor1"; "sponsor2"]
           ""
           "https://example.com/clothing"
           "https://example.com/tech"
           1440
           "s3cret".

(* ------------------------------------------------------------------ *)
(** ** Reading [REQUIRED_CHANNELS] (lines 11-12)

    [(process.env.REQUIRED_CHANNELS || '').split(',').map(s => s.trim())
    .filter(Boolean)], over strings as sequences of code units of any
    alphabet [char]: [is_comma] recognises [,] and [is_white] the code
    units that [trim] strips. *)

Section ChannelList.

Variable char : Type.
Variable is_comma : char -> bool.
Variable is_white : char -> bool.

(** [s.split(',')]: the pieces between commas; one piece, maybe empty,
    when there is no comma. *)
Fixpoint split_commas (s : list char) : list (list char) :=
  match s with
  | [] => [[]]
  | c :: rest =>
      if is_comma c then [] :: split_commas rest
      else match split_commas rest with
           | piece :: pieces => (c :: piece) :: pieces
           | [] => [[c]]
           end
  end.

Fixpoint trim_start (s : list char) : list char :=
  match s with
  | [] => []
  | c :: rest => if is_white c then trim_start rest else s
  end.

(** [s.trim()] *)
Definition trim (s : list char) : list char :=
  rev (trim_start (rev (trim_start s))).

(** [Boolean(s)] for a string *)
Definition non_empty (s : list char) : bool :=
  match s with
  | [] => false
  | _ :: _ => true
  end.

(** [env] is [process.env.REQUIRED_CHANNELS], [None] when unset. *)
Definition parse_channels (env : option (list char)) : list (list char) :=
  let raw := match env with
             | Some (c :: s) => c :: s
             | _ => []
             end in
  filter non_empty (map trim (split_commas raw)).

(** A name that survives the reading unchanged: not empty, no comma, no
    strippable code unit at either end. *)
Definition clean (name : list char) : Prop :=
  name <> [] /\
  Forall (fun c => is_comma c = false) name /\
  (forall c, hd_error name = Some c -> is_white c = false) /\
  (forall c, hd_error (rev name) = Some c -> is_white c = false).

(** [names.join(sep)] for a one-unit separator *)
Fixpoint join (sep : char) (names : list (list char)) : list char :=
  match names with
  | [] => []
  | [name] => name
  | name :: more => name ++ sep :: join sep more
  end.

End ChannelList.

(** The ASCII code units that [trim] strips. *)
Definition ascii_white (c : ascii) : bool :=
  let n := nat_of_ascii c in
  (n =? 32)%nat || ((9 <=? n)%nat && (n <=? 13)%nat).

Definition ascii_comma (c : ascii) : bool := (c =? ",")%char.

(* ------------------------------------------------------------------ *)
(** ** Bot handlers (lines 111-152) *)

(** [ch.replace('@', '')]: the first [@], wherever it is, is dropped. *)
Fixpoint remove_first_at (s : string) : string :=
  match s with
  | EmptyString => EmptyString
  | String c rest =>
      if (c =? "@")%char then rest else String c (remove_first_at rest)
  end.

Fixpoint has_at (s : string) : bool :=
  match s with
  | EmptyString => false
  | String c rest => (c =? "@")%char || has_at rest
  end.

(** What a handler does with its context [ctx], in the order done. *)
Inductive ctx_event : Type :=
| CtxReply (text : string) (keyboard : list (list Button))
| CtxEditMessageText (text : string) (keyboard : list (list Button))
| CtxAnswerCbQuery (text : string).

(** The chat behind [ctx]; the first argument of an oracle is again the
    number of calls made so far. *)
Record Chat : Type := mkChat {
  ctx_reply : nat -> string -> list (list Button) -> result unit;
  ctx_editMessageText : nat -> string -> list (list Button) -> result unit;
  ctx_answerCbQuery : nat -> string -> result unit
}.

(** The process state together with what was done with [ctx]. *)
Record GSt : Type := mkGSt {
  proc : St;
  outbox : list ctx_event
}.

Definition G (A : Type) : Type := GSt -> result A * GSt.

Definition g_bind {A B} (m : G A) (k : A -> G B) : G B :=
  fun g =>
    match m g with
    | (Ok a, g') => k a g'
    | (Throw e, g') => (Throw e, g')
    end.

Definition g_try {A} (m : G A) (h : exn -> G A) : G A :=
  fun g =>
    match m g with
    | (Ok a, g') => (Ok a, g')
    | (Throw e, g') => h e g'
    end.

(** A computation on the process state, run inside a handler. *)
Definition lift {A} (m : M A) : G A :=
  fun g =>
    match m (proc g) with
    | (r, s') => (r, mkGSt s' (outbox g))
    end.

Notation "x <~ m ;; k" := (g_bind m (fun x => k))
  (at level 61, m at next level, right associativity).

(** The URLs of the web-app buttons a handler put in front of the user. *)
Definition play_links_of (kb : list (list Button)) : list string :=
  flat_map (fun b => match b with
                     | WebAppButton _ url => [url]
                     | _ => []
                     end) (List.concat kb).

Definition play_links (evs : list ctx_event) : list string :=
  flat_map (fun ev => match ev with
                      | CtxReply _ kb => play_links_of kb
                      | CtxEditMessageText _ kb => play_links_of kb
                      | CtxAnswerCbQuery _ => []
                      end) evs.

Section Handlers.

Variable P : Platform.
Variable cfg : Config.
Variable C : Chat.

Definition reply (text : string) (kb : list (list Button)) : G unit :=
  fun g =>
    (ctx_reply C (clock (proc g)) text kb,
     mkGSt (advance (proc g)) (outbox g ++ [CtxReply text kb])).

Definition editMessageText (text : string) (kb : list (list Button))
  : G unit :=
  fun g =>
    (ctx_editMessageText C (clock (proc g)) text kb,
     mkGSt (advance (proc g)) (outbox g ++ [CtxEditMessageText text kb])).

Definition answerCbQuery (text : string) : G unit :=
  fun g =>
    (ctx_answerCbQuery C (clock (proc g)) text,
     mkGSt (advance (proc g)) (outbox g ++ [CtxAnswerCbQuery text])).

(** The keyboard of lines 118-119 and 132-133. *)
Definition subscribe_buttons : list (list Button) :=
  (map (fun ch => [ UrlButton ("Подписаться: " ++ ch)
                              ("https://t.me/" ++ remove_first_at ch) ])
       (REQUIRED_CHANNELS cfg)
   ++ [ [ CallbackButton "Проверить подписку" "check_subs" ] ])%list.

(** [bot.start], lines 111-122. *)
Definition on_start (from : From) : G unit :=
  u <~ lift (addOrUpdateUser P from) ;;
  ok <~ lift (isMemberOfAllChannels P cfg (from_id from)) ;;
  if (ok : bool)
  then reply "Добро пожаловать! Меню:" (mainMenuInline cfg (token u))
  else reply "Для доступа к боту необходимо подписаться на наши каналы:"
             subscribe_buttons.

(** [bot.command('menu')], lines 125-136. *)
Definition on_menu (from : From) : G unit :=
  u <~ lift (addOrUpdateUser P from) ;;
  ok <~ lift (isMemberOfAllChannels P cfg (from_id from)) ;;
  if (ok : bool)
  then reply "Меню:" (mainMenuInline cfg (token u))
  else reply "Пожалуйста, подпишитесь на наши каналы чтобы продолжить:"
             subscribe_buttons.

(** [bot.action('check_subs')], lines 139-152. *)
Definition on_check_subs (from : From) : G unit :=
  u <~ lift (addOrUpdateUser P from) ;;
  ok <~ lift (isMemberOfAllChannels P cfg (from_id from)) ;;
  if (ok : bool)
  then
    g_try (editMessageText "Вы подписаны! Вот меню:"
                           (mainMenuInline cfg (token u)))
          (fun _ => reply "Вы подписаны! Вот меню:"
                          (mainMenuInline cfg (token u)))
  else answerCbQuery "Вы ещё не подписались на все указанные каналы.".

End Handlers.

(** A chat in which a message can no longer be edited. *)
Definition chat_no_edit : Chat :=
  mkChat (fun _ _ _ => Ok tt)
         (fun _ _ _ => Throw (Error "400: Bad Request: message can't be edited"))
         (fun _ _ => Ok tt).

Definition from_carol : From := mkFrom 3 None (Some "Carol") None.

Definition arrived (us : list User) : GSt :=
  mkGSt (started us Missing) [].

(** A reader for [render_users]: a bracketed, comma-separated text is read
    back as the array of its non-empty pieces. *)
Definition parse_rendered (raw : string) : result JSON :=
  match list_ascii_of_string raw with
  | "["%char :: body =>
      match rev body with
      | "]"%char :: inner =>
          Ok (JArr (map (fun piece => JStr (string_of_list_ascii piece))
                        (filter (@non_empty ascii)
                                (split_commas ascii_comma (rev inner)))))
      | _ => Throw (Error "Unexpected end of JSON input")
      end
  | _ => Throw (Error "Unexpected token in JSON")
  end.

(** As [world], with a [JSON.parse] that reads back what
    [JSON.stringify] wrote. *)
Definition world_reading_back : Platform :=
  mkPlatform
    (tg_getChatMember world)
    (tg_sendMessage world)
    (fs_mkdirSync world)
    (fs_writeFileSync world)
    (fs_written_before_failure world)
    sample_byte
    (Date_now world)
    (Math_random world)
    parse_rendered
    render_users.

(* ------------------------------------------------------------------ *)
(** ** User registry *)

Section RegistryFacts.

Variable P : Platform.

Lemma find_user_id tgId us u :
  find_user tgId us = Some u -> telegram_id u = tgId.
Proof.
  unfold find_user. intros H. apply find_some in H.
  destruct H as [_ H]. now apply Z.eqb_eq in H.
Qed.

Lemma find_user_app_found tgId us extra u :
  find_user tgId us = Some u -> find_user tgId (us ++ extra) = Some u.
Proof.
  unfold find_user. induction us as [|v us IH]; simpl; [discriminate|].
  destruct (telegram_id v =? tgId)%Z; auto.
Qed.

Lemma find_user_app_unseen tgId us u :
  find_user tgId us = None ->
  find_user tgId (us ++ [u]) =
    if (telegram_id u =? tgId)%Z then Some u else None.
Proof.
  unfold find_user. induction us as [|v us IH]; simpl; [reflexivity|].
  destruct (telegram_id v =? tgId)%Z; [discriminate|auto].
Qed.

Lemma find_user_assign_same tgId us u0 u' :
  find_user tgId us = Some u0 ->
  telegram_id u' = tgId ->
  find_user tgId (assign_found tgId u' us) = Some u'.
Proof.
  unfold find_user. intros H E.
  induction us as [|v us IH]; simpl in *; [discriminate|].
  destruct (telegram_id v =? tgId)%Z eqn:V; simpl.
  - rewrite E, Z.eqb_refl. reflexivity.
  - rewrite V. auto.
Qed.

Lemma find_user_assign_other tgId other us u' :
  tgId <> other ->
  telegram_id u' = other ->
  find_user tgId (assign_found other u' us) = find_user tgId us.
Proof.
  unfold find_user. intros N E.
  induction us as [|v us IH]; simpl; [reflexivity|].
  destruct (telegram_id v =? other)%Z eqn:V; simpl.
  - apply Z.eqb_eq in V.
    assert (Hu : (telegram_id u' =? tgId)%Z = false)
      by (apply Z.eqb_neq; congruence).
    assert (Hv : (telegram_id v =? tgId)%Z = false)
      by (apply Z.eqb_neq; congruence).
    now rewrite Hu, Hv.
  - destruct (telegram_id v =? tgId)%Z; auto.
Qed.

Lemma upserted_user_id from s :
  telegram_id (upserted_user P from s) = from_id from.
Proof.
  unfold upserted_user.
  destruct (find_user (from_id from) (users s)) eqn:F; simpl; auto.
  now apply find_user_id in F.
Qed.

Lemma find_upserted from s :
  find_user (from_id from) (upserted_users P from s)
  = Some (upserted_user P from s).
Proof.
  pose proof (upserted_user_id from s) as Hid.
  unfold upserted_users, upserted_user in *.
  destruct (find_user (from_id from) (users s)) eqn:F.
  - eapply find_user_assign_same; eauto.
  - rewrite find_user_app_unseen by assumption.
    rewrite Hid, Z.eqb_refl. reflexivity.
Qed.

Lemma find_upserted_other tgId from s :
  tgId <> from_id from ->
  find_user tgId (upserted_users P from s) = find_user tgId (users s).
Proof.
  intros N. pose proof (upserted_user_id from s) as Hid.
  unfold upserted_users, upserted_user in *.
  destruct (find_user (from_id from) (users s)) eqn:F.
  - now apply find_user_assign_other.
  - destruct (find_user tgId (users s)) eqn:G.
    + now apply find_user_app_found.
    + rewrite find_user_app_unseen by assumption.
      rewrite Hid.
      destruct (from_id from =? tgId)%Z eqn:E; [|reflexivity].
      apply Z.eqb_eq in E. congruence.
Qed.

(** [saveUsers] changes neither the array nor the log, whether or not it
    succeeds. *)
Lemma saveUsers_effect us s :
  users (snd (saveUsers P us s)) = users s /\
  (clock s < clock (snd (saveUsers P us s)))%nat /\
  console_errors (trace (snd (saveUsers P us s))) = console_errors (trace s).
Proof.
  unfold saveUsers, ensureDataDir, existsSync_DATA_DIR, mkdirSync_DATA_DIR,
    writeFileSync_USERS_FILE, bind, ret, console_errors.
  destruct (dir_exists s); simpl.
  - destruct (fs_writeFileSync P (clock s) _); simpl;
      [|destruct (fs_written_before_failure P (clock s) _); simpl];
      rewrite ?flat_map_app; simpl; rewrite ?app_nil_r; auto.
  - destruct (fs_mkdirSync P (clock s)); simpl.
    + destruct (fs_writeFileSync P _ _); simpl;
        [|destruct (fs_written_before_failure P _ _); simpl];
        rewrite ?flat_map_app; simpl; rewrite ?app_nil_r; auto.
    + rewrite ?flat_map_app; simpl; rewrite ?app_nil_r. auto.
Qed.

(** What [saveUsers] returns is what the file system says. *)
Lemma saveUsers_result us s :
  fst (saveUsers P us s) =
    if dir_exists s
    then fs_writeFileSync P (clock s) (JSON_stringify P us)
    else match fs_mkdirSync P (clock s) with
         | Ok _ => fs_writeFileSync P (S (clock s)) (JSON_stringify P us)
         | Throw e => Throw e
         end.
Proof.
  unfold saveUsers, ensureDataDir, existsSync_DATA_DIR, mkdirSync_DATA_DIR,
    writeFileSync_USERS_FILE, bind, ret.
  destruct (dir_exists s); simpl.
  - destruct (fs_writeFileSync P (clock s) _) as [[]|e]; simpl;
      [|destruct (fs_written_before_failure P (clock s) _)]; reflexivity.
  - destruct (fs_mkdirSync P (clock s)); simpl; [|reflexivity].
    destruct (fs_writeFileSync P _ _) as [[]|e]; simpl;
      [|destruct (fs_written_before_failure P _ _)]; reflexivity.
Qed.

(** [addOrUpdateUser] is: change the array in memory, then [saveUsers],
    then return the record unless [saveUsers] raised. *)
Lemma addOrUpdateUser_unfold from s :
  addOrUpdateUser P from s =
    match saveUsers P (upserted_users P from s) (before_save P from s) with
    | (Ok _, s') => (Ok (upserted_user P from s), s')
    | (Throw e, s') => (Throw e, s')
    end.
Proof.
  unfold addOrUpdateUser, before_save, upserted_users, upserted_user,
    findUserById, read_users, write_users, randomBytes, new_Date, bind, ret.
  unfold updated_user, created_user. simpl.
  destruct (find_user (from_id from) (users s)) as [u|]; simpl;
    destruct (saveUsers P _ _) as [[[]|e] s2]; reflexivity.
Qed.

Lemma addOrUpdateUser_effect from s :
  users (snd (addOrUpdateUser P from s)) = upserted_users P from s /\
  (clock s < clock (snd (addOrUpdateUser P from s)))%nat /\
  (fst (addOrUpdateUser P from s) = Ok (upserted_user P from s) \/
   exists e, fst (addOrUpdateUser P from s) = Throw e).
Proof.
  rewrite addOrUpdateUser_unfold.
  pose proof (saveUsers_effect (upserted_users P from s) (before_save P from s))
    as (Hu & Hc & _).
  assert (Hb : (clock s <= clock (before_save P from s))%nat).
  { unfold before_save.
    destruct (find_user (from_id from) (users s)); simpl; lia. }
  destruct (saveUsers P _ (before_save P from s)) as [[[]|e] s2]; simpl in *.
  - repeat split; auto. lia.
  - repeat split; eauto. lia.
Qed.

Lemma last_seen_upserted from s :
  exists c, (clock s <= c)%nat /\
            (c < clock (snd (addOrUpdateUser P from s)))%nat /\
            last_seen (upserted_user P from s) = Date_now P c.
Proof.
  rewrite addOrUpdateUser_unfold.
  pose proof (saveUsers_effect (upserted_users P from s) (before_save P from s))
    as (_ & Hc & _).
  unfold upserted_user, before_save in *.
  destruct (find_user (from_id from) (users s)); simpl in *;
    destruct (saveUsers P _ _) as [[[]|e] s2]; simpl in *;
    eexists; (split; [|split; [|reflexivity]]); lia.
Qed.

Lemma hex_digit_lower n : is_lower_hex (hex_digit n) = true.
Proof.
  destruct n as [|p]; [reflexivity|].
  do 4 (try destruct p as [p|p|]); reflexivity.
Qed.

Lemma toString_hex_length bs :
  String.length (toString_hex bs) = 2 * List.length bs.
Proof.
  induction bs as [|b bs IH]; simpl; [reflexivity|].
  rewrite IH. lia.
Qed.

Lemma toString_hex_lower bs : lower_hex_string (toString_hex bs) = true.
Proof.
  unfold lower_hex_string.
  induction bs as [|b bs IH]; simpl; [reflexivity|].
  now rewrite !hex_digit_lower, IH.
Qed.

Lemma hex_of_byte_decodes b :
  HexString.Raw.to_N (hex_of_byte b) 0 = Byte.to_N b.
Proof. destruct b; reflexivity. Qed.

Lemma toString_hex_digits bs : forall i b,
  nth_error bs i = Some b ->
  substring (2 * i) 2 (toString_hex bs) = hex_of_byte b.
Proof.
  induction bs as [|b0 bs IH]; intros [|i] b H; try discriminate.
  - simpl in H. injection H as ->. simpl.
    now destruct (toString_hex bs).
  - replace (2 * S i) with (S (S (2 * i))) by lia.
    simpl in H. simpl. now apply IH.
Qed.

(** C10: the token created at the first upsert of an unseen identity is the
    hex rendering of the 10 random bytes drawn for it: 20 characters, each
    one of [0-9a-f], the two characters at 2i and 2i+1 reading, as a
    hexadecimal number, the value of byte i. *)
Theorem new_user_token_is_20_lower_hex from s :
  find_user (from_id from) (users s) = None ->
  exists (u : User) (bs : list byte),
    users (snd (addOrUpdateUser P from s)) = (users s ++ [u])%list /\
    telegram_id u = from_id from /\
    bs = map (crypto_randomByte P (clock s)) (seq 0 10) /\
    List.length bs = 10 /\
    token u = toString_hex bs /\
    String.length (token u) = 20 /\
    lower_hex_string (token u) = true /\
    (forall i b, nth_error bs i = Some b ->
       HexString.Raw.to_N (substring (2 * i) 2 (token u)) 0 = Byte.to_N b) /\
    (forall r, fst (addOrUpdateUser P from s) = Ok r -> r = u).
Proof.
  intros Unseen.
  destruct (addOrUpdateUser_effect from s) as (Hu & _ & Hr).
  unfold upserted_users, upserted_user in *. rewrite Unseen in *.
  exists (created_user P from s), (map (crypto_randomByte P (clock s)) (seq 0 10)).
  split; [assumption|]. split; [reflexivity|]. split; [reflexivity|].
  split; [now rewrite length_map, length_seq|]. split; [reflexivity|].
  split; [unfold created_user, token;
          now rewrite toString_hex_length, length_map, length_seq|].
  split; [unfold created_user, token; apply toString_hex_lower|].
  split.
  - intros i b H. unfold created_user, token.
    rewrite (toString_hex_digits _ _ H). apply hex_of_byte_decodes.
  - intros r Hok. destruct Hr as [Hr | [e Hr]]; congruence.
Qed.

Lemma remembered_upsert tgId t since f s :
  remembered P tgId t since s ->
  remembered P tgId t since (snd (addOrUpdateUser P f s)).
Proof.
  intros (u & Hf & Ht & Hs).
  destruct (addOrUpdateUser_effect f s) as (Hu & Hc & _).
  destruct (last_seen_upserted f s) as (c & Hc1 & Hc2 & Hl).
  unfold remembered. rewrite Hu.
  destruct (Z.eq_dec tgId (from_id f)) as [E|N].
  - subst tgId. rewrite find_upserted. eexists. split; [reflexivity|].
    unfold upserted_user in *. rewrite Hf in *. simpl in *. split; [assumption|].
    intros Mono. destruct (Hs Mono) as [H1 H2].
    rewrite Hl. split.
    + pose proof (Mono (clock s) c Hc1). lia.
    + apply Mono. lia.
  - rewrite find_upserted_other by assumption.
    exists u. repeat split; auto; destruct (Hs H) as [H1 H2]; auto.
    pose proof (H (clock s) (clock (snd (addOrUpdateUser P f s)))). lia.
Qed.

Lemma remembered_run tgId t since fs s :
  remembered P tgId t since s ->
  remembered P tgId t since (run_upserts P fs s).
Proof.
  revert s. induction fs as [|f fs IH]; simpl; intros s H; [assumption|].
  apply IH. now apply remembered_upsert.
Qed.

(** The token and id of a sender survive any upserts in between. *)
Lemma repeated_upsert_same_token from1 mids from2 s u1 s1 u2 s2 :
  from_id from2 = from_id from1 ->
  addOrUpdateUser P from1 s = (Ok u1, s1) ->
  addOrUpdateUser P from2 (run_upserts P mids s1) = (Ok u2, s2) ->
  token u2 = token u1 /\
  telegram_id u2 = telegram_id u1 /\
  telegram_id u1 = from_id from1 /\
  (clock_monotone P -> (last_seen u1 <= last_seen u2)%Z).
Proof.
  intros Eid H1 H2.
  assert (R1 : remembered P (from_id from1) (token u1) (last_seen u1) s1).
  { destruct (addOrUpdateUser_effect from1 s) as (Hu & _ & Hr).
    destruct (last_seen_upserted from1 s) as (c & _ & Hc & Hl).
    rewrite H1 in *. simpl in *.
    destruct Hr as [Hr | [e Hr]]; [|discriminate].
    injection Hr as ->.
    exists (upserted_user P from1 s). rewrite Hu, find_upserted.
    repeat split; auto; try lia.
    rewrite Hl. apply H. lia. }
  apply remembered_run with (fs := mids) in R1.
  apply remembered_upsert with (f := from2) in R1.
  set (s' := run_upserts P mids s1) in *.
  destruct (addOrUpdateUser_effect from2 s') as (Hu & _ & Hr).
  rewrite H2 in *. simpl in *.
  destruct Hr as [Hr | [e Hr]]; [|discriminate].
  injection Hr as ->.
  destruct R1 as (u & Hf & Ht & Hs).
  rewrite Hu, <- Eid, find_upserted in Hf. injection Hf as <-.
  assert (I1 : telegram_id u1 = from_id from1).
  { destruct (addOrUpdateUser_effect from1 s) as (_ & _ & Hr).
    rewrite H1 in Hr. simpl in Hr.
    destruct Hr as [Hr | [e Hr]]; [|discriminate].
    injection Hr as ->. apply upserted_user_id. }
  repeat split; auto.
  - rewrite upserted_user_id. congruence.
  - intros Mono. now destruct (Hs Mono).
Qed.

Lemma run_upserts_clock fs : forall s,
  (clock s <= clock (run_upserts P fs s))%nat.
Proof.
  induction fs as [|f fs IH]; intros s; simpl; [lia|].
  destruct (addOrUpdateUser_effect f s) as (_ & Hc & _).
  specialize (IH (snd (addOrUpdateUser P f s))). lia.
Qed.

(** C6, as the code has it: once an upsert has returned a record for an
    identity, every later upsert of that identity (whatever other upserts
    happen in between) returns a record with the same token and the same
    id; each [last_seen] is the reading of the wall clock taken at its
    upsert, the later upsert reading it later, so [last_seen] does not
    decrease when the wall clock does not run backwards. *)
Theorem upsert_keeps_token_and_id from1 mids from2 s u1 s1 u2 s2 :
  from_id from2 = from_id from1 ->
  addOrUpdateUser P from1 s = (Ok u1, s1) ->
  addOrUpdateUser P from2 (run_upserts P mids s1) = (Ok u2, s2) ->
  token u2 = token u1 /\
  telegram_id u2 = telegram_id u1 /\
  telegram_id u1 = from_id from1 /\
  (exists c1 c2 : nat,
     (c1 < c2)%nat /\
     last_seen u1 = Date_now P c1 /\
     last_seen u2 = Date_now P c2) /\
  (clock_monotone P -> (last_seen u1 <= last_seen u2)%Z).
Proof.
  intros Eid H1 H2.
  destruct (@repeated_upsert_same_token from1 mids from2 s u1 s1 u2 s2 Eid H1 H2)
    as (T & I & J & L).
  split; [exact T|]. split; [exact I|]. split; [exact J|].
  split; [|exact L].
  destruct (last_seen_upserted from1 s) as (c1 & _ & C1 & L1).
  destruct (last_seen_upserted from2 (run_upserts P mids s1))
    as (c2 & C2 & _ & L2).
  destruct (addOrUpdateUser_effect from1 s) as (_ & _ & R1).
  destruct (addOrUpdateUser_effect from2 (run_upserts P mids s1))
    as (_ & _ & R2).
  rewrite H1 in C1, R1. rewrite H2 in R2. cbn [fst snd] in C1, R1, R2.
  destruct R1 as [R1 | [e R1]]; [|discriminate]. injection R1 as R1.
  destruct R2 as [R2 | [e R2]]; [|discriminate]. injection R2 as R2.
  pose proof (run_upserts_clock mids s1).
  exists c1, c2. rewrite R1, R2. repeat split; auto. lia.
Qed.

(** C3, as the code has it: when the store cannot be written (the data
    directory cannot be created, or the file cannot be written), the upsert
    raises the exception of the file system and returns no record; nothing
    is logged; the array in memory already holds the created or updated
    record, with its token. *)
Theorem upsert_write_failure_propagates from s e :
  store_write_fails P from s e ->
  exists s',
    addOrUpdateUser P from s = (Throw e, s') /\
    users s' = upserted_users P from s /\
    find_user (from_id from) (users s') = Some (upserted_user P from s) /\
    token (upserted_user P from s) =
      match find_user (from_id from) (users s) with
      | Some u => token u
      | None => toString_hex (map (crypto_randomByte P (clock s)) (seq 0 10))
      end /\
    console_errors (trace s') = console_errors (trace s).
Proof.
  intros H. rewrite addOrUpdateUser_unfold.
  pose proof (saveUsers_effect (upserted_users P from s) (before_save P from s))
    as (Hu & _ & Hl).
  pose proof (saveUsers_result (upserted_users P from s) (before_save P from s))
    as Hr.
  assert (Hb : users (before_save P from s) = upserted_users P from s /\
               trace (before_save P from s) = trace s /\
               dir_exists (before_save P from s) = dir_exists s).
  { unfold before_save.
    destruct (find_user (from_id from) (users s)); auto. }
  destruct Hb as (B1 & B2 & B3).
  assert (Hf : fst (saveUsers P (upserted_users P from s)
                      (before_save P from s)) = Throw e).
  { rewrite Hr, B3. unfold store_write_fails in H.
    destruct (dir_exists s); [exact H|].
    destruct H as [-> | [-> H]]; [reflexivity|exact H]. }
  destruct (saveUsers P _ (before_save P from s)) as [r s0].
  cbn [fst snd] in Hu, Hl, Hf. subst r.
  exists s0. rewrite Hu, B1, Hl, B2, find_upserted.
  repeat split.
  unfold upserted_user, created_user, updated_user.
  destruct (find_user (from_id from) (users s)); reflexivity.
Qed.

End RegistryFacts.

(* ------------------------------------------------------------------ *)
(** ** Loading the registry *)

Section LoadFacts.

Variable P : Platform.

(** When the data directory is there, a file that is missing, unreadable
    or rejected by [JSON.parse] gives the empty array. *)
Lemma loadUsers_falls_back s :
  dir_exists s = true ->
  match file s with
  | Missing | Unreadable => True
  | Content raw => exists e, JSON_parse P raw = Throw e
  end ->
  loadUsers P s = (Ok (JArr []), s).
Proof.
  intros D H.
  unfold loadUsers, ensureDataDir, existsSync_DATA_DIR,
    readFileSync_USERS_FILE, parse, bind, try_catch, ret.
  rewrite D. simpl.
  destruct (file s) as [| |raw]; try reflexivity.
  destruct H as [e ->]. reflexivity.
Qed.

(** Whatever [JSON.parse] accepts is returned as it is. *)
Lemma loadUsers_returns_parsed s raw v :
  dir_exists s = true ->
  file s = Content raw ->
  JSON_parse P raw = Ok v ->
  loadUsers P s = (Ok v, s).
Proof.
  intros D F J.
  unfold loadUsers, ensureDataDir, existsSync_DATA_DIR,
    readFileSync_USERS_FILE, parse, bind, try_catch, ret.
  simpl. rewrite D. simpl. now rewrite F, J.
Qed.

(** [ensureDataDir] runs outside the [try]: its exception leaves
    [loadUsers]. *)
Lemma loadUsers_mkdir_failure s e :
  dir_exists s = false ->
  fs_mkdirSync P (clock s) = Throw e ->
  fst (loadUsers P s) = Throw e.
Proof.
  intros D K.
  unfold loadUsers, ensureDataDir, existsSync_DATA_DIR, mkdirSync_DATA_DIR,
    bind, try_catch, ret.
  simpl. rewrite D. simpl. now rewrite K.
Qed.

End LoadFacts.

(** C4, at a users file holding [{}]: the document parses, so [loadUsers]
    returns the object and not the empty array.  (And where the data
    directory cannot be created, [loadUsers] raises.) *)
Theorem loadUsers_keeps_non_array_document :
  loadUsers world (started [] (Content "{}"))
    = (Ok (JObj []), started [] (Content "{}")) /\
  JObj [] <> JArr [] /\
  fst (loadUsers world_readonly_disk (mkSt [] false Missing [] 0))
    = Throw (Error "EROFS: read-only file system, mkdir").
Proof.
  split; [reflexivity|]. split; [discriminate|reflexivity].
Qed.

(* ------------------------------------------------------------------ *)
(** ** Membership verifier *)

Section VerifierFacts.

Variable P : Platform.
Variable cfg : Config.

Lemma status_rejected_absent_left_kicked member :
  check_fails (Ok member) = status_rejected (member_status member).
Proof.
  unfold check_fails, status_rejected, absent, truthy_string.
  destruct (member_status member) as [st|]; [|reflexivity].
  rewrite negb_involutive.
  destruct (st =? ""), (st =? "left"), (st =? "kicked"); reflexivity.
Qed.

(** On the six statuses Telegram documents, line 89 and the comment on
    line 88 agree. *)
Lemma status_rejected_documented st :
  In st ["member"; "creator"; "administrator"; "restricted"; "left"; "kicked"] ->
  status_rejected (Some st) = negb (counts_as_member (Some st)).
Proof.
  simpl. intros H.
  repeat (destruct H as [<- | H]; [reflexivity|]). contradiction.
Qed.

(** One channel check: one transport call, then a verdict. *)
Lemma check_channel_run chRaw tgId s :
  let ch := channel_handle chRaw in
  let asked := advance (emit (EvGetChatMember ch tgId) s) in
  check_channel P chRaw tgId s =
    match tg_getChatMember P (clock s) ch tgId with
    | Ok member =>
        (Ok (if check_fails (Ok member) then Some false else None), asked)
    | Throw e =>
        (Ok (Some false),
         emit (EvConsoleError
                 [JStr "getChatMember error for"; JStr ch; JStr (message e)])
              asked)
    end.
Proof.
  unfold check_channel, getChatMember, console_error, try_catch, bind, ret.
  cbv zeta beta.
  destruct (tg_getChatMember P (clock s) (channel_handle chRaw) tgId)
    as [member|e]; [|reflexivity].
  rewrite status_rejected_absent_left_kicked.
  destruct (status_rejected (member_status member)); reflexivity.
Qed.

Lemma checks_app tr tr' : checks (tr ++ tr') = (checks tr ++ checks tr')%list.
Proof. apply flat_map_app. Qed.

Lemma sends_app tr tr' : sends (tr ++ tr') = (sends tr ++ sends tr')%list.
Proof. apply flat_map_app. Qed.

Lemma writes_app tr tr' : writes (tr ++ tr') = (writes tr ++ writes tr')%list.
Proof. apply flat_map_app. Qed.

(** A channel check never raises, never sends, and touches neither the
    registry nor its file. *)
Lemma check_channel_effect chRaw tgId s :
  exists r s',
    check_channel P chRaw tgId s = (Ok r, s') /\
    registry_untouched s s' /\
    sends (trace s') = sends (trace s) /\
    checks (trace s') = (checks (trace s) ++ [(channel_handle chRaw, tgId)])%list /\
    clock s' = S (clock s) /\
    (r = None <->
     check_fails (tg_getChatMember P (clock s) (channel_handle chRaw) tgId)
       = false) /\
    (r = None \/ r = Some false).
Proof.
  pose proof (check_channel_run chRaw tgId s) as R. cbv zeta in R.
  rewrite R. clear R. unfold registry_untouched.
  destruct (tg_getChatMember P (clock s) (channel_handle chRaw) tgId)
    as [member|e].
  - destruct (check_fails (Ok member)); do 2 eexists;
      (split; [reflexivity|]); simpl;
      rewrite ?writes_app, ?sends_app, ?checks_app; simpl;
      rewrite ?app_nil_r; repeat split; auto; discriminate.
  - do 2 eexists; (split; [reflexivity|]); simpl;
      rewrite ?writes_app, ?sends_app, ?checks_app; simpl;
      rewrite ?writes_app, ?sends_app, ?checks_app; simpl;
      rewrite ?app_nil_r; repeat split; auto; discriminate.
Qed.

Lemma registry_untouched_refl s : registry_untouched s s.
Proof. unfold registry_untouched. auto. Qed.

Lemma registry_untouched_trans s1 s2 s3 :
  registry_untouched s1 s2 -> registry_untouched s2 s3 ->
  registry_untouched s1 s3.
Proof.
  unfold registry_untouched.
  intros (A1 & A2 & A3 & A4) (B1 & B2 & B3 & B4).
  repeat split; congruence.
Qed.

Lemma check_channels_effect chs tgId s :
  exists b s',
    check_channels P chs tgId s = (Ok b, s') /\
    registry_untouched s s' /\
    sends (trace s') = sends (trace s).
Proof.
  revert s. induction chs as [|chRaw rest IH]; intros s; simpl.
  - exists true, s. auto using registry_untouched_refl.
  - destruct (check_channel_effect chRaw tgId s)
      as (r & s1 & E & U & Sd & _ & _ & _ & Hr).
    unfold bind. rewrite E.
    destruct Hr as [-> | ->].
    + destruct (IH s1) as (b & s2 & E2 & U2 & Sd2).
      exists b, s2. rewrite E2.
      split; [reflexivity|].
      split; [eapply registry_untouched_trans; eauto|congruence].
    + exists false, s1. auto.
Qed.

Lemma isMember_effect tgId s :
  exists b s',
    isMemberOfAllChannels P cfg tgId s = (Ok b, s') /\
    registry_untouched s s' /\
    sends (trace s') = sends (trace s).
Proof.
  unfold isMemberOfAllChannels.
  destruct (List.length (REQUIRED_CHANNELS cfg) =? 0)%nat.
  - exists true, s. auto using registry_untouched_refl.
  - apply check_channels_effect.
Qed.

(** The loop stops at the first failing channel. *)
Lemma check_channels_short_circuit pre ch post tgId : forall s,
  (forall i c, nth_error pre i = Some c ->
     check_fails (tg_getChatMember P (clock s + i) (channel_handle c) tgId)
       = false) ->
  check_fails
    (tg_getChatMember P (clock s + List.length pre) (channel_handle ch) tgId)
    = true ->
  exists s',
    check_channels P (pre ++ ch :: post) tgId s = (Ok false, s') /\
    checks (trace s') =
      (checks (trace s)
       ++ map (fun c => (channel_handle c, tgId)) (pre ++ [ch]))%list /\
    clock s' = clock s + List.length pre + 1.
Proof.
  induction pre as [|c pre IH]; intros s Hpre Hch; simpl.
  - destruct (check_channel_effect ch tgId s)
      as (r & s1 & E & _ & _ & Ck & Cl & Hn & Hr).
    unfold bind. rewrite E.
    rewrite Nat.add_0_r in Hch. simpl in Hch.
    destruct Hr as [-> | ->].
    + destruct Hn as [Hn _]. specialize (Hn eq_refl). congruence.
    + exists s1. repeat split; auto. lia.
  - destruct (check_channel_effect c tgId s)
      as (r & s1 & E & _ & _ & Ck & Cl & Hn & Hr).
    unfold bind. rewrite E.
    assert (r = None) as ->.
    { apply Hn. specialize (Hpre 0 c eq_refl).
      now rewrite Nat.add_0_r in Hpre. }
    destruct (IH s1) as (s2 & E2 & Ck2 & Cl2).
    + intros i c' Hi. rewrite Cl.
      specialize (Hpre (S i) c' Hi).
      now replace (S (clock s) + i) with (clock s + S i) by lia.
    + rewrite Cl. simpl in Hch.
      now replace (S (clock s) + List.length pre)
        with (clock s + S (List.length pre)) by lia.
    + exists s2. rewrite E2, Ck2, Ck, Cl2, Cl. simpl.
      rewrite <- app_assoc. simpl. repeat split; auto. lia.
Qed.

(** C7: [isMemberOfAllChannels] never raises; and when the channels before
    [ch] pass and the check of [ch] fails (status absent, [left] or
    [kicked], or a transport error), it returns [false] having asked the
    transport about the channels up to [ch] and no other. *)
Theorem isMember_stops_at_first_failure :
  (forall tgId s,
     exists b s', isMemberOfAllChannels P cfg tgId s = (Ok b, s')) /\
  (forall tgId s pre ch post,
     REQUIRED_CHANNELS cfg = (pre ++ ch :: post)%list ->
     (forall i c, nth_error pre i = Some c ->
        check_fails
          (tg_getChatMember P (clock s + i) (channel_handle c) tgId) = false) ->
     check_fails
       (tg_getChatMember P (clock s + List.length pre) (channel_handle ch) tgId)
       = true ->
     exists s',
       isMemberOfAllChannels P cfg tgId s = (Ok false, s') /\
       checks (trace s') =
         (checks (trace s)
          ++ map (fun c => (channel_handle c, tgId)) (pre ++ [ch]))%list /\
       clock s' = clock s + List.length pre + 1).
Proof.
  split.
  - intros tgId s.
    destruct (isMember_effect tgId s) as (b & s' & E & _). eauto.
  - intros tgId s pre ch post Hc Hpre Hch.
    unfold isMemberOfAllChannels. rewrite Hc.
    replace (List.length (pre ++ ch :: post) =? 0)%nat with false.
    + now apply check_channels_short_circuit.
    + symmetry. apply Nat.eqb_neq. rewrite length_app. simpl. lia.
Qed.

End VerifierFacts.

(** C2, at a status outside the six documented ones: the verifier lets
    ["banned"] through, although it is none of [member], [creator],
    [administrator], [restricted]. *)
Theorem isMember_accepts_unknown_status :
  counts_as_member (Some "banned") = false /\
  tg_getChatMember world_unknown_status 1 "@sponsor1" 1
    = Ok (Some (mkChatMember (Some "banned"))) /\
  fst (isMemberOfAllChannels world_unknown_status config 1
         (started [alice] Missing)) = Ok true.
Proof. repeat split. Qed.

(* ------------------------------------------------------------------ *)
(** ** Broadcast engine *)

Section BroadcastFacts.

Variable P : Platform.
Variable cfg : Config.

Lemma strict_neq_false provided expected :
  strict_neq provided expected = false <->
  provided = Some (QString expected).
Proof.
  unfold strict_neq. destruct provided as [[v|]|]; split; intros H;
    try discriminate.
  - apply negb_false_iff, String.eqb_eq in H. now subst.
  - injection H as ->. now rewrite String.eqb_refl.
Qed.

Lemma truthy_string_false s : truthy_string s = false <-> s = "".
Proof.
  unfold truthy_string. rewrite negb_false_iff. apply String.eqb_eq.
Qed.

(** The guard of line 166 lets a request through exactly when it is
    [authorized]. *)
Lemma guard_passes req :
  negb (truthy_string (ADMIN_TOKEN cfg))
  || strict_neq (provided_token req) (ADMIN_TOKEN cfg) = false
  <-> authorized cfg req.
Proof.
  unfold authorized.
  rewrite orb_false_iff, negb_false_iff, strict_neq_false.
  split; intros [A B]; split; auto.
  - intros E. apply truthy_string_false in E. congruence.
  - destruct (truthy_string (ADMIN_TOKEN cfg)) eqn:T; [reflexivity|].
    apply truthy_string_false in T. contradiction.
Qed.

(** C5: with an empty configured token, or a presented token (the header
    if non-empty, else the query parameter) that is not the configured one,
    the handler answers 403 [{error:"forbidden"}] and does nothing else,
    whatever the body. *)
Theorem admin_broadcast_forbidden req s :
  ADMIN_TOKEN cfg = "" \/
  provided_token req <> Some (QString (ADMIN_TOKEN cfg)) ->
  admin_broadcast P cfg req s = (Ok forbidden, s).
Proof.
  intros H. unfold admin_broadcast.
  destruct (negb (truthy_string (ADMIN_TOKEN cfg))
            || strict_neq (provided_token req) (ADMIN_TOKEN cfg)) eqn:G;
    [reflexivity|].
  apply guard_passes in G. destruct G as [G1 G2].
  destruct H; contradiction.
Qed.

(** With a text to read, line 167 reads it. *)
Lemma destructure_text_found b text s :
  body_text b = Some text ->
  destructure_text b s = (Ok (Some text), s).
Proof.
  intros H. unfold destructure_text, ret.
  destruct b; try discriminate; now rewrite H.
Qed.


Lemma sendMessage_effect chat text extra s :
  registry_untouched s (snd (sendMessage P chat text extra s)) /\
  sends (trace (snd (sendMessage P chat text extra s)))
    = (sends (trace s) ++ [(chat, text, extra)])%list.
Proof.
  unfold sendMessage, registry_untouched. simpl.
  rewrite writes_app, sends_app. simpl. rewrite app_nil_r. auto.
Qed.

Lemma emit_console_effect args s :
  registry_untouched s (emit (EvConsoleError args) s) /\
  sends (trace (emit (EvConsoleError args) s)) = sends (trace s).
Proof.
  unfold registry_untouched. simpl.
  rewrite writes_app, sends_app. simpl. rewrite !app_nil_r. auto.
Qed.

(** The loop body does to its recipient what [delivery] says. *)
Lemma broadcast_step_delivery text u s :
  exists o s',
    broadcast_step P cfg u text s = (Ok o, s') /\
    delivery P cfg text u s o s'.
Proof.
  destruct (isMember_effect P cfg (telegram_id u) s) as (b & s1 & E & _).
  unfold broadcast_step, try_catch, bind, ret, console_error. rewrite E.
  destruct b; cbv beta iota delta [negb].
  - destruct (sendMessage P (telegram_id u) text (broadcast_extra cfg u) s1)
      as [[[]|e] s2] eqn:Sd; do 2 eexists; (split; [reflexivity|]).
    + eapply delivery_sent; eauto.
    + eapply delivery_failed; eauto.
  - do 2 eexists. split; [reflexivity|]. now apply delivery_skipped.
Qed.

Lemma delivery_effect text u s o s' :
  delivery P cfg text u s o s' ->
  registry_untouched s s' /\
  sends (trace s') =
    (sends (trace s)
     ++ match o with
        | Skipped => []
        | _ => [(telegram_id u, text, broadcast_extra cfg u)]
        end)%list.
Proof.
  intros D.
  destruct D as [s s1 E | s s1 s2 E Sd | s s1 s2 e E Sd];
    destruct (isMember_effect P cfg (telegram_id u) s) as (b & s1' & E' & U & Ss);
    rewrite E in E'; injection E' as <- <-.
  - rewrite app_nil_r. auto.
  - destruct (sendMessage_effect (telegram_id u) text (broadcast_extra cfg u) s1)
      as [U2 S2].
    rewrite Sd in U2, S2. simpl in U2, S2.
    split; [eapply registry_untouched_trans; eauto|congruence].
  - destruct (sendMessage_effect (telegram_id u) text (broadcast_extra cfg u) s1)
      as [U2 S2].
    rewrite Sd in U2, S2. simpl in U2, S2.
    match goal with |- context [emit (EvConsoleError ?a) s2] =>
      destruct (emit_console_effect a s2) as [U3 S3] end.
    split.
    + eapply registry_untouched_trans; [exact U|].
      eapply registry_untouched_trans; eauto.
    + congruence.
Qed.

Lemma pass_effect text us s outs s' :
  pass P cfg text us s outs s' ->
  registry_untouched s s' /\
  List.length outs = List.length us /\
  sends (trace s') =
    (sends (trace s)
     ++ map (fun u => (telegram_id u, text, broadcast_extra cfg u))
            (attempted us outs))%list.
Proof.
  induction 1 as [s | u rest s o s1 outs s2 D Hp (U & L & Sd)].
  - simpl. rewrite app_nil_r. auto using registry_untouched_refl.
  - destruct (delivery_effect D) as [U1 S1].
    split; [eapply registry_untouched_trans; eauto|].
    split; [simpl; congruence|].
    rewrite Sd, S1, <- app_assoc. destruct o; reflexivity.
Qed.

Lemma tally_cons o o' outs :
  tally o (o' :: outs) = (if outcome_eqb o o' then 1 else 0) + tally o outs.
Proof. unfold tally. simpl. destruct (outcome_eqb o o'); reflexivity. Qed.

(** The counters at the end of the loop are the counters at its start plus
    the number of [Sent] and of [Failed] recipients. *)
Lemma broadcast_loop_pass text us : forall s sent failed,
  exists outs s',
    pass P cfg text us s outs s' /\
    broadcast_loop P cfg us text sent failed s
      = (Ok (sent + tally Sent outs, failed + tally Failed outs), s').
Proof.
  induction us as [|u rest IH]; intros s sent failed.
  - exists [], s. split; [constructor|]. simpl. unfold ret, tally. simpl.
    now rewrite !Nat.add_0_r.
  - destruct (broadcast_step_delivery text u s) as (o & s1 & E & D).
    simpl. unfold bind. rewrite E.
    destruct o.
    + destruct (IH s1 sent failed) as (outs & s2 & Hp & L).
      exists (Skipped :: outs), s2. split; [econstructor; eauto|].
      rewrite L, !tally_cons. reflexivity.
    + destruct (IH s1 (S sent) failed) as (outs & s2 & Hp & L).
      exists (Sent :: outs), s2. split; [econstructor; eauto|].
      rewrite L, !tally_cons. simpl. do 3 f_equal. lia.
    + destruct (IH s1 sent (S failed)) as (outs & s2 & Hp & L).
      exists (Failed :: outs), s2. split; [econstructor; eauto|].
      rewrite L, !tally_cons. simpl. do 3 f_equal. lia.
Qed.

Lemma tally_count_occ o outs :
  tally o outs = count_occ outcome_eq_dec outs o.
Proof.
  induction outs as [|o' outs IH]; [reflexivity|].
  rewrite tally_cons, IH. simpl.
  destruct (outcome_eq_dec o' o) as [->|N].
  - now destruct o.
  - destruct o, o'; try reflexivity; now contradiction N.
Qed.

(** C1: an authorized broadcast of a non-empty text makes one pass over the
    users of the moment, in array order, one [delivery] after the other;
    it answers 200 [{ok:true, sent, failed}] where [sent] and [failed] are
    the numbers of recipients whose delivery was [Sent] and [Failed]; a
    skipped recipient counts in neither; and exactly the recipients not
    skipped were handed to the transport, once each, in order. *)
Theorem admin_broadcast_tallies_each_recipient req text s :
  authorized cfg req ->
  body_text (req_body req) = Some text ->
  truthy text = true ->
  exists outs s',
    pass P cfg text (users s) s outs s' /\
    admin_broadcast P cfg req s
      = (Ok (mkResponse 200
               (JObj [("ok", JBool true);
                      ("sent",
                       JNum (Z.of_nat (count_occ outcome_eq_dec outs Sent)));
                      ("failed",
                       JNum (Z.of_nat (count_occ outcome_eq_dec outs Failed)))])),
         s') /\
    List.length outs = List.length (users s) /\
    sends (trace s') =
      (sends (trace s)
       ++ map (fun u => (telegram_id u, text, broadcast_extra cfg u))
              (attempted (users s) outs))%list.
Proof.
  intros A B T. apply guard_passes in A.
  destruct (broadcast_loop_pass text (users s) s 0 0) as (outs & s' & Hp & L).
  exists outs, s'. split; [exact Hp|].
  destruct (pass_effect Hp) as (_ & Len & Sd).
  split; [|split; assumption].
  unfold admin_broadcast. rewrite A. cbv iota.
  unfold bind at 1. rewrite (destructure_text_found _ s B), T. simpl.
  unfold bind, read_users, ret. rewrite L.
  unfold broadcast_ok. cbn [fst snd]. now rewrite <- !tally_count_occ.
Qed.

Lemma broadcast_loop_untouched text us s sent failed :
  registry_untouched s (snd (broadcast_loop P cfg us text sent failed s)).
Proof.
  destruct (broadcast_loop_pass text us s sent failed) as (outs & s' & Hp & L).
  rewrite L. now destruct (pass_effect Hp).
Qed.

Lemma promo_step_effect text u s :
  exists o s',
    promo_step P cfg u text s = (Ok o, s') /\ registry_untouched s s'.
Proof.
  destruct (isMember_effect P cfg (telegram_id u) s) as (b & s1 & E & U & _).
  unfold promo_step, try_catch, bind, ret, console_error. rewrite E.
  destruct b; cbv beta iota delta [negb].
  - destruct (sendMessage_effect (telegram_id u) text (promo_extra cfg u) s1)
      as [U2 _].
    destruct (sendMessage P (telegram_id u) text (promo_extra cfg u) s1)
      as [[[]|e] s2]; do 2 eexists; (split; [reflexivity|]); simpl in U2.
    + eapply registry_untouched_trans; eauto.
    + eapply registry_untouched_trans; [exact U|].
      eapply registry_untouched_trans; [exact U2|].
      apply emit_console_effect.
  - do 2 eexists. split; [reflexivity|assumption].
Qed.

Lemma promo_loop_untouched text us : forall s,
  fst (promo_loop P cfg us text s) = Ok tt /\
  registry_untouched s (snd (promo_loop P cfg us text s)).
Proof.
  induction us as [|u rest IH]; intros s; simpl.
  - split; [reflexivity|apply registry_untouched_refl].
  - destruct (promo_step_effect text u s) as (o & s1 & E & U).
    unfold bind. rewrite E. destruct (IH s1) as [R U1].
    split; [assumption|eapply registry_untouched_trans; eauto].
Qed.

(** C9: neither the admin broadcast (whatever the request) nor a firing of
    the promo timer changes the users array, the users file or the data
    directory, and neither attempts a write of the users file. *)
Theorem broadcast_pass_leaves_registry_untouched :
  (forall req s, registry_untouched s (snd (admin_broadcast P cfg req s))) /\
  (forall s, registry_untouched s (snd (promo_tick P cfg s))).
Proof.
  split.
  - intros req s. unfold admin_broadcast.
    destruct (negb (truthy_string (ADMIN_TOKEN cfg))
              || strict_neq (provided_token req) (ADMIN_TOKEN cfg));
      [apply registry_untouched_refl|].
    unfold bind at 1, destructure_text, throw, ret.
    destruct (req_body req) as [props|items|]; cbn [body_text];
      try apply registry_untouched_refl.
    destruct (get_prop "text" props) as [text|];
      [|apply registry_untouched_refl].
    destruct (truthy text); [|apply registry_untouched_refl].
    simpl. unfold bind, read_users, ret.
    pose proof (broadcast_loop_untouched text (users s) s 0 0) as U.
    destruct (broadcast_loop P cfg (users s) text 0 0 s) as [[c|e] s'];
      exact U.
  - intros s. unfold promo_tick, random_index, read_users, bind.
    set (text := JStr _).
    destruct (promo_loop_untouched text (users (advance s)) (advance s))
      as [_ U].
    eapply registry_untouched_trans; [|exact U].
    unfold registry_untouched. simpl. auto.
Qed.

End BroadcastFacts.

(* ------------------------------------------------------------------ *)
(** ** The theorems at work *)

(** Scenario: three users, user 3 has left, the send to user 2 raises.
    The pass reaches all three and answers [{ok:true, sent:1, failed:1}]. *)
Example broadcast_one_sent_one_failed_one_skipped :
  fst (admin_broadcast world config sale_request
         (started [bob; alice; carol] Missing))
    = Ok (mkResponse 200 (JObj [("ok", JBool true); ("sent", JNum 1);
                                ("failed", JNum 1)])) /\
  map (fun m => fst (fst m))
      (sends (trace (snd (admin_broadcast world config sale_request
                            (started [bob; alice; carol] Missing)))))
    = [2; 1]%Z.
Proof. split; vm_compute; reflexivity. Qed.

(** With [ADMIN_TOKEN] unset, a request presenting the empty token is
    refused although the two are equal. *)
Example unset_admin_token_forbids_equal_token :
  admin_broadcast world config_no_admin
    (mkRequest None (Some (QString "")) (BodyObject [("text", JStr "Sale!")]))
    (started [alice; bob; carol] Missing)
  = (Ok forbidden, started [alice; bob; carol] Missing).
Proof. reflexivity. Qed.

(** An upsert of a known identity keeps its token, with the disk working
    or not. *)
Example upsert_known_user_keeps_token :
  option_map token
    (find_user 1 (users (snd (addOrUpdateUser world_readonly_disk from_alice
                                (started [alice; bob] Missing)))))
    = Some "00112233445566778899".
Proof. vm_compute. reflexivity. Qed.

(** C3, as stated, fails on a read-only disk: the upsert raises the error
    of [writeFileSync] and returns no record; nothing is logged. *)
Lemma upsert_raises_on_readonly_disk :
  fst (addOrUpdateUser world_readonly_disk from_dave
         (started [alice] Missing))
    = Throw (Error "EROFS: read-only file system, open") /\
  ~ (exists u, fst (addOrUpdateUser world_readonly_disk from_dave
                      (started [alice] Missing)) = Ok u) /\
  console_errors (trace (snd (addOrUpdateUser world_readonly_disk from_dave
                                (started [alice] Missing)))) = [].
Proof.
  split; [vm_compute; reflexivity|]. split; [|vm_compute; reflexivity].
  intros [u H]. vm_compute in H. discriminate.
Qed.

(** On a full disk the failed write has emptied the file; the array in
    memory is the only copy left. *)
Example upsert_on_full_disk_empties_file :
  fst (addOrUpdateUser world_full_disk from_dave
         (started [alice] (Content "[00112233445566778899]")))
    = Throw (Error "ENOSPC: no space left on device, write") /\
  file (snd (addOrUpdateUser world_full_disk from_dave
               (started [alice] (Content "[00112233445566778899]"))))
    = Content "" /\
  List.length (users (snd (addOrUpdateUser world_full_disk from_dave
                             (started [alice]
                                (Content "[00112233445566778899]"))))) = 2.
Proof. repeat split; vm_compute; reflexivity. Qed.

(** The same upsert on the read-only disk, read through the statement
    above. *)
Lemma upsert_write_failure_propagates_witness :
  store_write_fails world_readonly_disk from_dave (started [alice] Missing)
    (Error "EROFS: read-only file system, open") /\
  exists s',
    addOrUpdateUser world_readonly_disk from_dave (started [alice] Missing)
      = (Throw (Error "EROFS: read-only file system, open"), s') /\
    users s' = upserted_users world_readonly_disk from_dave
                 (started [alice] Missing) /\
    find_user 4 (users s')
      = Some (upserted_user world_readonly_disk from_dave
                (started [alice] Missing)) /\
    token (upserted_user world_readonly_disk from_dave
             (started [alice] Missing))
      = toString_hex (map (crypto_randomByte world_readonly_disk 0)
                          (seq 0 10)) /\
    console_errors (trace s') = [].
Proof.
  assert (H : store_write_fails world_readonly_disk from_dave
                (started [alice] Missing)
                (Error "EROFS: read-only file system, open"))
    by reflexivity.
  split; [exact H|].
  exact (@upsert_write_failure_propagates world_readonly_disk from_dave
           (started [alice] Missing)
           (Error "EROFS: read-only file system, open") H).
Defined.

(** A first contact from user 4 in a registry of two. *)
Lemma new_user_token_is_20_lower_hex_witness :
  find_user (from_id from_dave) (users (started [alice; bob] Missing)) = None /\
  exists (u : User) (bs : list byte),
    users (snd (addOrUpdateUser world from_dave (started [alice; bob] Missing)))
      = ([alice; bob] ++ [u])%list /\
    telegram_id u = 4%Z /\
    bs = map (crypto_randomByte world 0) (seq 0 10) /\
    List.length bs = 10 /\
    token u = toString_hex bs /\
    String.length (token u) = 20 /\
    lower_hex_string (token u) = true /\
    (forall i b, nth_error bs i = Some b ->
       HexString.Raw.to_N (substring (2 * i) 2 (token u)) 0 = Byte.to_N b) /\
    (forall r, fst (addOrUpdateUser world from_dave
                      (started [alice; bob] Missing)) = Ok r -> r = u).
Proof.
  split; [reflexivity|].
  apply (@new_user_token_is_20_lower_hex world from_dave
           (started [alice; bob] Missing)).
  reflexivity.
Defined.

(** The bytes 00, 07, 0e, ... of [world] give this token. *)
Example new_user_token_in_world :
  option_map token
    (find_user 4 (users (snd (addOrUpdateUser world from_dave
                                (started [alice; bob] Missing)))))
    = Some "00070e151c232a31383f".
Proof. vm_compute. reflexivity. Qed.

(** The clock of [world] ticks forward. *)
Lemma world_clock_monotone : clock_monotone world.
Proof.
  intros i j H. unfold world, Date_now.
  apply Z.add_le_mono_l. now apply Nat2Z.inj_le.
Qed.

(** C6, as stated, fails when the wall clock is set back between two
    upserts of user 4: the second [last_seen] is the earlier one. *)
Lemma last_seen_decreases_when_clock_set_back :
  exists u1 s1 u2 s2,
    addOrUpdateUser world_clock_set_back from_dave (started [alice] Missing)
      = (Ok u1, s1) /\
    addOrUpdateUser world_clock_set_back from_dave s1 = (Ok u2, s2) /\
    token u2 = token u1 /\
    (last_seen u2 < last_seen u1)%Z.
Proof.
  assert (E1 : exists u1 s1,
             addOrUpdateUser world_clock_set_back from_dave
               (started [alice] Missing) = (Ok u1, s1))
    by (vm_compute; do 2 eexists; reflexivity).
  destruct E1 as (u1 & s1 & E1).
  assert (E2 : exists u2 s2,
             addOrUpdateUser world_clock_set_back from_dave s1
               = (Ok u2, s2) /\
             token u2 = token u1 /\
             (last_seen u2 ?= last_seen u1)%Z = Lt).
  { vm_compute in E1. injection E1 as <- <-.
    do 2 eexists. split; [vm_compute; reflexivity|].
    split; vm_compute; reflexivity. }
  destruct E2 as (u2 & s2 & E2 & T & L).
  exists u1, s1, u2, s2.
  split; [exact E1|]. split; [exact E2|]. split; [exact T|exact L].
Qed.

(** User 4 arrives, user 1 is seen again, user 4 comes back under a new
    first name. *)
Lemma upsert_keeps_token_and_id_witness :
  exists u1 s1 u2 s2,
    addOrUpdateUser world from_dave (started [alice] Missing) = (Ok u1, s1) /\
    addOrUpdateUser world (mkFrom 4 None (Some "Dave") None)
      (run_upserts world [from_alice] s1) = (Ok u2, s2) /\
    token u2 = token u1 /\
    telegram_id u2 = telegram_id u1 /\
    telegram_id u1 = 4%Z /\
    (exists c1 c2 : nat,
       (c1 < c2)%nat /\
       last_seen u1 = Date_now world c1 /\
       last_seen u2 = Date_now world c2) /\
    (last_seen u1 <= last_seen u2)%Z.
Proof.
  assert (E1 : exists u1 s1,
             addOrUpdateUser world from_dave (started [alice] Missing)
               = (Ok u1, s1))
    by (vm_compute; eauto).
  destruct E1 as (u1 & s1 & E1).
  assert (E2 : exists u2 s2,
             addOrUpdateUser world (mkFrom 4 None (Some "Dave") None)
               (run_upserts world [from_alice] s1) = (Ok u2, s2)).
  { vm_compute in E1. injection E1 as <- <-. vm_compute. eauto. }
  destruct E2 as (u2 & s2 & E2).
  exists u1, s1, u2, s2.
  split; [exact E1|]. split; [exact E2|].
  destruct (@upsert_keeps_token_and_id world from_dave [from_alice]
              (mkFrom 4 None (Some "Dave") None)
              (started [alice] Missing) u1 s1 u2 s2 eq_refl E1 E2)
    as (T & I & J & R & L).
  split; [exact T|]. split; [exact I|]. split; [exact J|].
  split; [exact R|].
  exact (L world_clock_monotone).
Defined.

(** The bot cannot read the second of three channels: two calls, no
    third. *)
Lemma isMember_stops_at_first_failure_witness :
  REQUIRED_CHANNELS config = (["mychannel"] ++ "@sponsor1" :: ["sponsor2"])%list /\
  check_fails (tg_getChatMember world_no_access 0 "@mychannel" 1) = false /\
  check_fails (tg_getChatMember world_no_access 1 "@sponsor1" 1) = true /\
  exists s',
    isMemberOfAllChannels world_no_access config 1 (started [alice] Missing)
      = (Ok false, s') /\
    checks (trace s') = [("@mychannel", 1%Z); ("@sponsor1", 1%Z)] /\
    clock s' = 2.
Proof.
  split; [reflexivity|]. split; [reflexivity|]. split; [reflexivity|].
  apply (proj2 (isMember_stops_at_first_failure world_no_access config)
           1%Z (started [alice] Missing) ["mychannel"] "@sponsor1" ["sponsor2"]).
  - reflexivity.
  - intros [|[|i]] c H; simpl in H; try discriminate.
    injection H as <-. reflexivity.
  - reflexivity.
Defined.

(** A wrong header is not rescued by the right query parameter. *)
Lemma admin_broadcast_forbidden_witness :
  (ADMIN_TOKEN config = "" \/
   provided_token wrong_token_request <> Some (QString (ADMIN_TOKEN config))) /\
  admin_broadcast world config wrong_token_request
    (started [alice; bob; carol] Missing)
    = (Ok forbidden, started [alice; bob; carol] Missing).
Proof.
  assert (H : ADMIN_TOKEN config = "" \/
              provided_token wrong_token_request
                <> Some (QString (ADMIN_TOKEN config)))
    by (right; discriminate).
  split; [exact H|].
  exact (@admin_broadcast_forbidden world config wrong_token_request
           (started [alice; bob; carol] Missing) H).
Defined.




(** The token may come in the header. *)
Lemma config_authorizes_header_token : authorized config sale_request.
Proof. split; [discriminate|reflexivity]. Defined.

(** The scenario above, read through the statement of the pass. *)
Lemma admin_broadcast_tallies_each_recipient_witness :
  authorized config sale_request /\
  body_text (req_body sale_request) = Some (JStr "Sale!") /\
  truthy (JStr "Sale!") = true /\
  exists outs s',
    pass world config (JStr "Sale!") [bob; alice; carol]
         (started [bob; alice; carol] Missing) outs s' /\
    admin_broadcast world config sale_request
      (started [bob; alice; carol] Missing)
      = (Ok (mkResponse 200
               (JObj [("ok", JBool true);
                      ("sent",
                       JNum (Z.of_nat (count_occ outcome_eq_dec outs Sent)));
                      ("failed",
                       JNum (Z.of_nat (count_occ outcome_eq_dec outs Failed)))])),
         s') /\
    List.length outs = 3 /\
    sends (trace s') =
      ([] ++ map (fun u => (telegram_id u, JStr "Sale!",
                            broadcast_extra config u))
                 (attempted [bob; alice; carol] outs))%list.
Proof.
  split; [exact config_authorizes_header_token|].
  split; [reflexivity|]. split; [reflexivity|].
  exact (@admin_broadcast_tallies_each_recipient world config sale_request
           (JStr "Sale!") (started [bob; alice; carol] Missing)
           config_authorizes_header_token eq_refl eq_refl).
Defined.

(* ------------------------------------------------------------------ *)
(** ** More on the user registry *)

Section RegistryMore.

Variable P : Platform.

Lemma assign_found_ids tgId u' us :
  telegram_id u' = tgId ->
  map telegram_id (assign_found tgId u' us) = map telegram_id us.
Proof.
  intros E. induction us as [|v us IH]; simpl; [reflexivity|].
  destruct (telegram_id v =? tgId)%Z eqn:V; simpl.
  - apply Z.eqb_eq in V. congruence.
  - now rewrite IH.
Qed.

Lemma find_user_none_not_in tgId us :
  find_user tgId us = None -> ~ In tgId (map telegram_id us).
Proof.
  unfold find_user. intros F H. apply in_map_iff in H.
  destruct H as (u & E & I).
  pose proof (find_none _ _ F u I) as N. simpl in N.
  apply Z.eqb_neq in N. contradiction.
Qed.

Lemma upserted_ids from s :
  map telegram_id (upserted_users P from s) =
    (map telegram_id (users s)
     ++ match find_user (from_id from) (users s) with
        | Some _ => []
        | None => [from_id from]
        end)%list.
Proof.
  pose proof (upserted_user_id P from s) as Hid.
  unfold upserted_users, upserted_user in *.
  destruct (find_user (from_id from) (users s)) eqn:F.
  - rewrite app_nil_r. now apply assign_found_ids.
  - rewrite map_app. reflexivity.
Qed.

(** X1: the registry only grows, and only at its end: an upsert, whether it
    returns or raises, leaves the sequence of ids as it was, followed by
    the sender's id when the sender was not known; the record found for
    any other id is the one found before. *)
Theorem upsert_appends_at_most_one_id from s :
  map telegram_id (users (snd (addOrUpdateUser P from s))) =
    (map telegram_id (users s)
     ++ match find_user (from_id from) (users s) with
        | Some _ => []
        | None => [from_id from]
        end)%list /\
  (forall other, other <> from_id from ->
     find_user other (users (snd (addOrUpdateUser P from s)))
       = find_user other (users s)).
Proof.
  destruct (addOrUpdateUser_effect P from s) as (Hu & _).
  rewrite Hu. split; [apply upserted_ids|].
  intros other N. now apply find_upserted_other.
Qed.

(** X2: one record per id: a registry without two records of the same id stays
    so under any run of upserts. *)
Theorem upserts_keep_ids_distinct froms s :
  NoDup (map telegram_id (users s)) ->
  NoDup (map telegram_id (users (run_upserts P froms s))).
Proof.
  revert s. induction froms as [|f froms IH]; intros s H; simpl; [exact H|].
  apply IH.
  destruct (addOrUpdateUser_effect P f s) as (Hu & _).
  rewrite Hu, upserted_ids.
  destruct (find_user (from_id f) (users s)) eqn:F.
  - now rewrite app_nil_r.
  - apply NoDup_app; [exact H|repeat constructor; simpl; tauto|].
    intros x Hx [<-|[]]. revert Hx. now apply find_user_none_not_in.
Qed.

(** X3: insert then look up: the record an upsert returns is the record
    [findUserById] finds afterwards, and the look-up changes nothing. *)
Theorem upsert_then_find from s u s' :
  addOrUpdateUser P from s = (Ok u, s') ->
  findUserById (from_id from) s' = (Ok (Some u), s').
Proof.
  intros H.
  destruct (addOrUpdateUser_effect P from s) as (Hu & _ & Hr).
  rewrite H in Hu, Hr. simpl in Hu, Hr.
  destruct Hr as [Hr | [e Hr]]; [|discriminate]. injection Hr as ->.
  unfold findUserById, read_users, bind, ret.
  now rewrite Hu, find_upserted.
Qed.

(** X4: display fields are last-write-wins over non-empty values only: after
    an upsert of a known sender, each stored field is the incoming one when
    that is a non-empty string and the stored one otherwise; id and token
    are the stored ones. *)
Theorem upsert_overwrites_only_with_non_empty from s u0 :
  find_user (from_id from) (users s) = Some u0 ->
  exists u,
    find_user (from_id from) (users (snd (addOrUpdateUser P from s))) = Some u /\
    telegram_id u = telegram_id u0 /\
    token u = token u0 /\
    username u = (if truthy_opt (from_username from)
                  then from_username from else username u0) /\
    first_name u = (if truthy_opt (from_first_name from)
                    then from_first_name from else first_name u0) /\
    last_name u = (if truthy_opt (from_last_name from)
                   then from_last_name from else last_name u0).
Proof.
  intros F.
  destruct (addOrUpdateUser_effect P from s) as (Hu & _).
  rewrite Hu, find_upserted. unfold upserted_user. rewrite F.
  eexists. split; [reflexivity|]. repeat split.
Qed.

Lemma saveUsers_success us s s' :
  saveUsers P us s = (Ok tt, s') ->
  file s' = Content (JSON_stringify P us) /\
  dir_exists s' = true /\
  writes (trace s') = (writes (trace s) ++ [JSON_stringify P us])%list.
Proof.
  unfold saveUsers, ensureDataDir, existsSync_DATA_DIR, mkdirSync_DATA_DIR,
    writeFileSync_USERS_FILE, bind, ret.
  destruct (dir_exists s) eqn:D; simpl.
  - destruct (fs_writeFileSync P (clock s) _); simpl;
      [|destruct (fs_written_before_failure P (clock s) _); discriminate].
    intros H. injection H as <-. simpl.
    rewrite writes_app. simpl. auto.
  - destruct (fs_mkdirSync P (clock s)); simpl; [|discriminate].
    destruct (fs_writeFileSync P _ _); simpl;
      [|destruct (fs_written_before_failure P _ _); discriminate].
    intros H. injection H as <-. simpl.
    rewrite !writes_app. simpl. rewrite app_nil_r. auto.
Qed.

Lemma addOrUpdateUser_success from s u s' :
  addOrUpdateUser P from s = (Ok u, s') ->
  saveUsers P (upserted_users P from s) (before_save P from s) = (Ok tt, s').
Proof.
  rewrite addOrUpdateUser_unfold.
  destruct (saveUsers P _ (before_save P from s)) as [[[]|e] s2];
    intros H; [|discriminate].
  now injection H as _ <-.
Qed.

(** X5: when an upsert returns, the users file holds the rendering of the whole
    array as it now is in memory, the data directory exists, and exactly
    one write of the file was made. *)
Theorem upsert_success_persists_whole_array from s u s' :
  addOrUpdateUser P from s = (Ok u, s') ->
  file s' = Content (JSON_stringify P (users s')) /\
  dir_exists s' = true /\
  writes (trace s') = (writes (trace s) ++ [JSON_stringify P (users s')])%list.
Proof.
  intros H.
  destruct (addOrUpdateUser_effect P from s) as (Hu & _).
  rewrite H in Hu. simpl in Hu.
  apply addOrUpdateUser_success in H.
  destruct (saveUsers_success _ _ H) as (F & D & W).
  rewrite Hu, F, D, W. repeat split.
  f_equal. unfold before_save.
  destruct (find_user (from_id from) (users s)); reflexivity.
Qed.

(** X6: save then load: where [JSON.parse] reads back what [JSON.stringify]
    wrote, [loadUsers] after a returned upsert gives that reading of the
    array in memory, without touching anything. *)
Theorem upsert_then_loadUsers from s u s' v :
  addOrUpdateUser P from s = (Ok u, s') ->
  JSON_parse P (JSON_stringify P (users s')) = Ok v ->
  loadUsers P s' = (Ok v, s').
Proof.
  intros H J.
  destruct (addOrUpdateUser_effect P from s) as (Hu & _).
  rewrite H in Hu. simpl in Hu.
  apply addOrUpdateUser_success in H.
  destruct (saveUsers_success _ _ H) as (F & D & _).
  apply loadUsers_returns_parsed with (raw := JSON_stringify P (users s'));
    auto.
  now rewrite Hu.
Qed.

(** X7: nobody is forgotten and no token is ever changed: a record found
    before a run of upserts, of whatever senders, is found after it under
    the same id with the same token. *)
Theorem registry_never_forgets froms : forall s tgId u,
  find_user tgId (users s) = Some u ->
  exists u',
    find_user tgId (users (run_upserts P froms s)) = Some u' /\
    token u' = token u /\
    telegram_id u' = telegram_id u.
Proof.
  induction froms as [|f froms IH]; intros s tgId u F; simpl; [eauto|].
  destruct (addOrUpdateUser_effect P f s) as (Hu & _).
  destruct (Z.eq_dec tgId (from_id f)) as [E|N].
  - subst tgId.
    assert (F' : find_user (from_id f) (users (snd (addOrUpdateUser P f s)))
                 = Some (updated_user P f u s)).
    { rewrite Hu, find_upserted. unfold upserted_user. now rewrite F. }
    destruct (IH _ _ _ F') as (u' & G & T & I). eauto.
  - assert (F' : find_user tgId (users (snd (addOrUpdateUser P f s)))
                 = Some u)
      by (rewrite Hu, find_upserted_other; assumption).
    apply (IH _ _ _ F').
Qed.

End RegistryMore.

Section LoadMore.

Variable P : Platform.

(** X8: best-effort start: provided the data directory exists or can be
    created, a users file that is missing, unreadable or rejected by
    [JSON.parse] yields the empty array; the directory exists afterwards
    and the file is neither created nor changed. *)
Theorem loadUsers_best_effort s :
  dir_exists s = true \/ fs_mkdirSync P (clock s) = Ok tt ->
  match file s with
  | Missing | Unreadable => True
  | Content raw => exists e, JSON_parse P raw = Throw e
  end ->
  exists s',
    loadUsers P s = (Ok (JArr []), s') /\
    dir_exists s' = true /\
    file s' = file s /\
    users s' = users s /\
    writes (trace s') = writes (trace s).
Proof.
  intros D H.
  unfold loadUsers, ensureDataDir, existsSync_DATA_DIR, mkdirSync_DATA_DIR,
    readFileSync_USERS_FILE, parse, bind, try_catch, ret.
  destruct (dir_exists s) eqn:Dx; simpl.
  - exists s. destruct (file s) as [| |raw] eqn:F;
      [| |destruct H as [e ->]]; rewrite ?F; auto.
  - destruct D as [D|D]; [discriminate|]. rewrite D. simpl.
    assert (W : writes (trace s ++ [EvMkdir]) = writes (trace s))
      by (rewrite writes_app; simpl; apply app_nil_r).
    destruct (file s) as [| |raw] eqn:F;
      [| |destruct H as [e ->]];
      (eexists; split; [reflexivity|simpl; rewrite ?F; auto]).
Qed.

End LoadMore.

(* ------------------------------------------------------------------ *)
(** ** More on the membership verifier *)

Section VerifierMore.

Variable P : Platform.
Variable cfg : Config.

Lemma channel_handle_prefixed c : String.prefix "@" (channel_handle c) = true.
Proof.
  unfold channel_handle.
  destruct (String.prefix "@" c) eqn:E; [exact E|].
  simpl. now destruct c.
Qed.

(** The loop in full: it asks about a leading part of the list, in order,
    one call each, and answers [true] exactly when every check passed. *)
Lemma check_channels_run chs tgId : forall s,
  exists b k s',
    check_channels P chs tgId s = (Ok b, s') /\
    k <= List.length chs /\
    checks (trace s') =
      (checks (trace s)
       ++ map (fun c => (channel_handle c, tgId)) (firstn k chs))%list /\
    clock s' = clock s + k /\
    (b = true -> k = List.length chs) /\
    (b = true <->
     forall i c, nth_error chs i = Some c ->
       check_fails (tg_getChatMember P (clock s + i) (channel_handle c) tgId)
         = false).
Proof.
  induction chs as [|c chs IH]; intros s.
  - exists true, 0, s. simpl. rewrite app_nil_r, Nat.add_0_r.
    split; [reflexivity|]. split; [lia|]. split; [reflexivity|].
    split; [reflexivity|]. split; [reflexivity|].
    split; [|reflexivity]. intros _ [|i] c H; discriminate.
  - destruct (check_channel_effect P c tgId s)
      as (r & s1 & E & _ & _ & Ck & Cl & Hn & Hr).
    simpl. unfold bind. rewrite E.
    destruct Hr as [-> | ->].
    + destruct (IH s1) as (b & k & s2 & E2 & Hk & Ck2 & Cl2 & Hb & Hiff).
      exists b, (S k), s2. rewrite E2, Ck2, Ck, Cl2, Cl. simpl.
      rewrite <- app_assoc. simpl.
      split; [reflexivity|]. split; [lia|]. split; [reflexivity|].
      split; [lia|]. split; [intros B; now rewrite (Hb B)|].
      rewrite Hiff. rewrite Cl. split.
      * intros H [|i] c' Hi; simpl in Hi.
        -- injection Hi as <-. rewrite Nat.add_0_r. now apply Hn.
        -- replace (clock s + S i) with (S (clock s) + i) by lia. auto.
      * intros H i c' Hi.
        replace (S (clock s) + i) with (clock s + S i) by lia.
        now apply H.
    + exists false, 1, s1. rewrite Ck, Cl. simpl.
      split; [reflexivity|]. split; [lia|]. split; [reflexivity|].
      split; [lia|]. split; [discriminate|].
      split; [discriminate|].
      intros H. specialize (H 0 c eq_refl). rewrite Nat.add_0_r in H.
      apply Hn in H. discriminate.
Qed.

(** With no required channel the verifier answers [true] at once: no
    transport call, no log line, nothing changed. *)
Lemma isMember_without_channels tgId s :
  REQUIRED_CHANNELS cfg = [] ->
  isMemberOfAllChannels P cfg tgId s = (Ok true, s).
Proof.
  intros H. unfold isMemberOfAllChannels. now rewrite H.
Qed.

(** X9: the verifier answers [true] exactly when the check of every required
    channel passes, each asked in list order at its own turn; it has then
    asked about every channel once. *)
Theorem isMember_true_iff_every_check_passes tgId s :
  (fst (isMemberOfAllChannels P cfg tgId s) = Ok true <->
   forall i c, nth_error (REQUIRED_CHANNELS cfg) i = Some c ->
     check_fails (tg_getChatMember P (clock s + i) (channel_handle c) tgId)
       = false) /\
  (fst (isMemberOfAllChannels P cfg tgId s) = Ok true ->
   checks (trace (snd (isMemberOfAllChannels P cfg tgId s))) =
     (checks (trace s)
      ++ map (fun c => (channel_handle c, tgId)) (REQUIRED_CHANNELS cfg))%list).
Proof.
  unfold isMemberOfAllChannels.
  destruct (REQUIRED_CHANNELS cfg) as [|c0 chs] eqn:R.
  - simpl. rewrite app_nil_r. split; [|reflexivity].
    split; [|reflexivity]. intros _ [|i] c H; discriminate.
  - change (List.length (c0 :: chs) =? 0)%nat with false. cbv iota.
    destruct (check_channels_run (c0 :: chs) tgId s)
      as (b & k & s' & E & _ & Ck & _ & Hb & Hiff).
    rewrite E. cbn [fst snd]. split.
    + rewrite <- Hiff. split; congruence.
    + intros B. assert (b = true) as -> by congruence.
      rewrite Ck, (Hb eq_refl), firstn_all. reflexivity.
Qed.

(** X10: whatever the answer, the verifier asks the transport only about the
    user it was given and only about required channels, each under a handle
    that starts with [@], in list order without gaps or repeats; so it
    makes at most as many calls as there are channels. *)
Theorem isMember_asks_only_listed_channels tgId s :
  exists k,
    k <= List.length (REQUIRED_CHANNELS cfg) /\
    checks (trace (snd (isMemberOfAllChannels P cfg tgId s))) =
      (checks (trace s)
       ++ map (fun c => (channel_handle c, tgId))
              (firstn k (REQUIRED_CHANNELS cfg)))%list /\
    clock (snd (isMemberOfAllChannels P cfg tgId s)) = clock s + k /\
    Forall (fun q => String.prefix "@" (fst q) = true /\ snd q = tgId)
           (map (fun c => (channel_handle c, tgId))
                (firstn k (REQUIRED_CHANNELS cfg))).
Proof.
  unfold isMemberOfAllChannels.
  destruct (List.length (REQUIRED_CHANNELS cfg) =? 0)%nat.
  - exists 0. simpl. rewrite app_nil_r, Nat.add_0_r.
    repeat split; auto with arith.
  - destruct (check_channels_run (REQUIRED_CHANNELS cfg) tgId s)
      as (b & k & s' & E & Hk & Ck & Cl & _).
    exists k. rewrite E. cbn [snd].
    repeat split; auto.
    apply Forall_forall. intros q Hq. apply in_map_iff in Hq.
    destruct Hq as (c & <- & _). simpl.
    split; [apply channel_handle_prefixed|reflexivity].
Qed.

(** X11: a channel may be configured as [name] or as [@name]: the check is the
    same. *)
Theorem check_channel_ignores_leading_at c tgId s :
  String.prefix "@" c = false ->
  check_channel P ("@" ++ c) tgId s = check_channel P c tgId s.
Proof.
  intros H. unfold check_channel, channel_handle. rewrite H.
  change (String.prefix "@" ("@" ++ c)) with (String.prefix "" c).
  now destruct c.
Qed.

(** X12: on the six statuses Telegram documents the check passes exactly for
    the four listed as subscribed on line 88. *)
Theorem documented_status_passes_iff_listed st :
  In st ["member"; "creator"; "administrator"; "restricted"; "left"; "kicked"] ->
  status_rejected (member_status (Some (mkChatMember (Some st))))
  = negb (counts_as_member (Some st)) /\
  check_fails (Ok (Some (mkChatMember (Some st))))
  = negb (counts_as_member (Some st)).
Proof.
  intros H. rewrite status_rejected_absent_left_kicked.
  split; now apply status_rejected_documented.
Qed.

End VerifierMore.

(* ------------------------------------------------------------------ *)
(** ** More on the broadcast engine *)

Section BroadcastMore.

Variable P : Platform.
Variable cfg : Config.

Lemma tally_total outs :
  tally Skipped outs + tally Sent outs + tally Failed outs = List.length outs.
Proof.
  induction outs as [|o outs IH]; [reflexivity|].
  rewrite !tally_cons. destruct o; simpl; lia.
Qed.

(** Past the guard: line 167, then the test of line 168, then the pass. *)
Lemma admin_broadcast_authorized_run req s :
  authorized cfg req ->
  admin_broadcast P cfg req s =
    match req_body req with
    | BodyUndefined => (Throw cannot_destructure, s)
    | _ =>
        match body_text (req_body req) with
        | Some text =>
            if truthy text
            then (usersCopy <- read_users ;;
                  counts <- broadcast_loop P cfg usersCopy text 0 0 ;;
                  ret (broadcast_ok (fst counts) (snd counts))) s
            else (Ok text_required, s)
        | None => (Ok text_required, s)
        end
    end.
Proof.
  intros A. apply guard_passes in A.
  unfold admin_broadcast. rewrite A. cbv iota.
  unfold bind at 1. unfold destructure_text, throw.
  destruct (req_body req) as [props|items|]; try reflexivity.
  unfold ret at 1. cbv beta iota.
  destruct (body_text (BodyObject props)) as [text|]; [|reflexivity].
  destruct (truthy text); reflexivity.
Qed.

(** X13: the handler raises only for an authorized request whose body is
    [undefined], at line 167 and before anything is done; every other
    request is answered, with 403, 400 or 200, and a 200 answer counts no
    more recipients than there are users. *)
Theorem admin_broadcast_always_answers req s :
  (authorized cfg req /\ req_body req = BodyUndefined ->
   admin_broadcast P cfg req s = (Throw cannot_destructure, s)) /\
  (~ (authorized cfg req /\ req_body req = BodyUndefined) ->
   exists resp s',
     admin_broadcast P cfg req s = (Ok resp, s') /\
     (resp = mkResponse 403 (JObj [("error", JStr "forbidden")]) \/
      resp = mkResponse 400 (JObj [("error", JStr "text required")]) \/
      exists sent failed,
        resp = mkResponse 200
                 (JObj [("ok", JBool true);
                        ("sent", JNum (Z.of_nat sent));
                        ("failed", JNum (Z.of_nat failed))]) /\
        sent + failed <= List.length (users s))).
Proof.
  destruct (negb (truthy_string (ADMIN_TOKEN cfg))
            || strict_neq (provided_token req) (ADMIN_TOKEN cfg)) eqn:G.
  - split.
    + intros [A _]. apply guard_passes in A. congruence.
    + intros _. exists forbidden, s. unfold admin_broadcast. rewrite G.
      split; [reflexivity|now left].
  - apply guard_passes in G. rewrite (admin_broadcast_authorized_run s G).
    destruct (req_body req) as [props|items|] eqn:B; cbn [body_text].
    2: { split; [intros [_ U]; discriminate|]. intros _.
         exists text_required, s. split; [reflexivity|now (right; left)]. }
    2: { split; [reflexivity|]. intros N. contradiction N. now split. }
    split; [intros [_ U]; discriminate|]. intros _.
    destruct (get_prop "text" props) as [text|];
      [|exists text_required, s; split; [reflexivity|now (right; left)]].
    destruct (truthy text);
      [|exists text_required, s; split; [reflexivity|now (right; left)]].
    destruct (broadcast_loop_pass P cfg text (users s) s 0 0)
      as (outs & s' & Hp & L).
    destruct (pass_effect Hp) as (_ & Len & _).
    unfold bind, read_users, ret. rewrite L.
    do 2 eexists. split; [reflexivity|]. right. right.
    do 2 eexists. split; [reflexivity|].
    pose proof (tally_total outs). simpl. lia.
Qed.

(** A non-empty [X-Admin-Token] header decides alone: the query parameter
    is not looked at. *)
Lemma header_token_takes_precedence h q q' body s :
  h <> "" ->
  admin_broadcast P cfg (mkRequest (Some h) q body) s
  = admin_broadcast P cfg (mkRequest (Some h) q' body) s.
Proof.
  intros H. unfold admin_broadcast, provided_token. simpl.
  destruct (truthy_string h) eqn:T; [reflexivity|].
  apply truthy_string_false in T. contradiction.
Qed.

Lemma pass_without_channels text us s outs s' :
  REQUIRED_CHANNELS cfg = [] ->
  pass P cfg text us s outs s' ->
  attempted us outs = us.
Proof.
  intros R. induction 1 as [s | u rest s o s1 outs s2 D Hp IH];
    [reflexivity|].
  simpl. rewrite IH.
  destruct D as [s s1 E | |]; try reflexivity.
  unfold isMemberOfAllChannels in E. rewrite R in E. discriminate.
Qed.

Lemma attempted_length us : forall outs,
  List.length outs = List.length us ->
  List.length (attempted us outs) = tally Sent outs + tally Failed outs.
Proof.
  induction us as [|u us IH]; intros [|o outs] L; try discriminate;
    [reflexivity|].
  injection L as L. rewrite !tally_cons.
  destruct o; simpl; rewrite (IH _ L); lia.
Qed.

(** X14: with no required channel nobody is skipped: an authorized broadcast
    hands every user to the transport, in array order, and
    [sent + failed] is the number of users. *)
Theorem admin_broadcast_without_channels_reaches_all req text s :
  authorized cfg req ->
  body_text (req_body req) = Some text ->
  truthy text = true ->
  REQUIRED_CHANNELS cfg = [] ->
  exists sent failed s',
    admin_broadcast P cfg req s = (Ok (broadcast_ok sent failed), s') /\
    sent + failed = List.length (users s) /\
    sends (trace s') =
      (sends (trace s)
       ++ map (fun u => (telegram_id u, text, broadcast_extra cfg u))
              (users s))%list.
Proof.
  intros A B T R. apply guard_passes in A.
  destruct (broadcast_loop_pass P cfg text (users s) s 0 0)
    as (outs & s' & Hp & L).
  destruct (pass_effect Hp) as (_ & Len & Sd).
  pose proof (pass_without_channels R Hp) as At.
  pose proof (attempted_length (users s) outs Len) as Al.
  rewrite At in Sd, Al.
  exists (tally Sent outs), (tally Failed outs), s'.
  split; [|split; [lia|exact Sd]].
  unfold admin_broadcast. rewrite A. cbv iota.
  unfold bind at 1. rewrite (destructure_text_found _ s B), T. simpl.
  unfold bind, read_users, ret. rewrite L. reflexivity.
Qed.

Lemma logged_failures_app tr tr' :
  logged_failures (tr ++ tr')
  = (logged_failures tr ++ logged_failures tr')%list.
Proof. apply flat_map_app. Qed.

Lemma check_channel_logs_no_failure c tgId s :
  logged_failures (trace (snd (check_channel P c tgId s)))
  = logged_failures (trace s).
Proof.
  pose proof (check_channel_run P c tgId s) as R. cbv zeta in R.
  rewrite R.
  destruct (tg_getChatMember P (clock s) (channel_handle c) tgId)
    as [member|e]; [destruct (check_fails (Ok member))|];
    cbn [snd trace emit advance];
    rewrite !logged_failures_app; simpl; now rewrite ?app_nil_r.
Qed.

Lemma check_channels_logs_no_failure chs tgId : forall s,
  logged_failures (trace (snd (check_channels P chs tgId s)))
  = logged_failures (trace s).
Proof.
  induction chs as [|c chs IH]; intros s; [reflexivity|].
  simpl. unfold bind.
  pose proof (check_channel_logs_no_failure c tgId s) as L.
  destruct (check_channel P c tgId s) as [[[b|]|e] s1]; cbn [snd] in *;
    [exact L|now rewrite IH|exact L].
Qed.

Lemma isMember_logs_no_failure tgId s :
  logged_failures (trace (snd (isMemberOfAllChannels P cfg tgId s)))
  = logged_failures (trace s).
Proof.
  unfold isMemberOfAllChannels.
  destruct (List.length (REQUIRED_CHANNELS cfg) =? 0)%nat; [reflexivity|].
  apply check_channels_logs_no_failure.
Qed.

Lemma delivery_logs text u s o s' :
  delivery P cfg text u s o s' ->
  logged_failures (trace s') =
    (logged_failures (trace s)
     ++ match o with Failed => [telegram_id u] | _ => [] end)%list.
Proof.
  intros D.
  destruct D as [s s1 E | s s1 s2 E Sd | s s1 s2 e E Sd];
    pose proof (isMember_logs_no_failure (telegram_id u) s) as L;
    rewrite E in L; cbn [snd] in L.
  - now rewrite app_nil_r.
  - unfold sendMessage in Sd. injection Sd as _ <-.
    cbn [trace emit advance]. rewrite logged_failures_app, L. simpl.
    reflexivity.
  - unfold sendMessage in Sd. injection Sd as _ <-.
    cbn [trace emit advance]. rewrite !logged_failures_app, L. simpl.
    now rewrite app_nil_r.
Qed.

Lemma pass_logs text us s outs s' :
  pass P cfg text us s outs s' ->
  logged_failures (trace s') =
    (logged_failures (trace s)
     ++ map telegram_id (with_outcome Failed us outs))%list /\
  List.length (with_outcome Failed us outs) = tally Failed outs.
Proof.
  induction 1 as [s | u rest s o s1 outs s2 D Hp [IH1 IH2]].
  - simpl. now rewrite app_nil_r.
  - rewrite IH1, (delivery_logs D), <- app_assoc, tally_cons.
    destruct o; simpl; rewrite ?IH2; auto.
Qed.

Lemma with_outcome_incl o us : forall outs,
  incl (with_outcome o us outs) us.
Proof.
  induction us as [|u us IH]; intros [|o' outs]; simpl;
    try apply incl_nil_l.
  destruct (outcome_eqb o o').
  - apply incl_cons; [now left|apply incl_tl, IH].
  - apply incl_tl, IH.
Qed.

(** X15: every failure counted is logged, once, under the recipient's id: the
    [broadcast failed to] lines an authorized broadcast writes name, in
    order, the users whose send raised, and [failed] is their number. *)
Theorem admin_broadcast_logs_each_failure req text s :
  authorized cfg req ->
  body_text (req_body req) = Some text ->
  truthy text = true ->
  exists outs s',
    pass P cfg text (users s) s outs s' /\
    admin_broadcast P cfg req s
      = (Ok (broadcast_ok (tally Sent outs) (tally Failed outs)), s') /\
    logged_failures (trace s') =
      (logged_failures (trace s)
       ++ map telegram_id (with_outcome Failed (users s) outs))%list /\
    List.length (with_outcome Failed (users s) outs) = tally Failed outs /\
    incl (with_outcome Failed (users s) outs) (users s).
Proof.
  intros A B T. apply guard_passes in A.
  destruct (broadcast_loop_pass P cfg text (users s) s 0 0)
    as (outs & s' & Hp & L).
  destruct (pass_logs Hp) as [Lg Ln].
  exists outs, s'. split; [exact Hp|].
  split; [|split; [exact Lg|split; [exact Ln|apply with_outcome_incl]]].
  unfold admin_broadcast. rewrite A. cbv iota.
  unfold bind at 1. rewrite (destructure_text_found _ s B), T. simpl.
  unfold bind, read_users, ret. rewrite L. reflexivity.
Qed.

(** The loop of the promo timer: it never raises and hands to the
    transport, silently, the users its membership check let through. *)
Lemma promo_loop_run text us : forall s,
  exists outs s',
    promo_loop P cfg us text s = (Ok tt, s') /\
    List.length outs = List.length us /\
    sends (trace s') =
      (sends (trace s)
       ++ map (fun u => (telegram_id u, text, promo_extra cfg u))
              (attempted us outs))%list.
Proof.
  induction us as [|u us IH]; intros s.
  - exists [], s. simpl. now rewrite app_nil_r.
  - destruct (isMember_effect P cfg (telegram_id u) s)
      as (b & s1 & E & _ & Sm).
    simpl. unfold bind at 1.
    unfold promo_step, try_catch, bind, ret, console_error. rewrite E.
    destruct b; cbv beta iota delta [negb].
    + destruct (sendMessage_effect P (telegram_id u) text
                  (promo_extra cfg u) s1) as [_ S2].
      destruct (sendMessage P (telegram_id u) text (promo_extra cfg u) s1)
        as [[[]|e] s2]; cbn [snd] in S2.
      * destruct (IH s2) as (outs & s' & E' & Len & Sd).
        exists (Sent :: outs), s'. rewrite E', Sd, S2, Sm, <- app_assoc.
        simpl. auto.
      * match goal with |- context [emit (EvConsoleError ?a) s2] =>
          destruct (emit_console_effect a s2) as [_ S3];
          destruct (IH (emit (EvConsoleError a) s2))
            as (outs & s' & E' & Len & Sd) end.
        exists (Failed :: outs), s'. rewrite E', Sd, S3, S2, Sm, <- app_assoc.
        simpl. auto.
    + destruct (IH s1) as (outs & s' & E' & Len & Sd).
      exists (Skipped :: outs), s'. rewrite E', Sd, Sm. simpl. auto.
Qed.

(** X16: one firing of the promo timer never raises; it sends one and the same
    text, taken from the pool of three, with notifications disabled and a
    keyboard carrying the recipient's own token, to users of the registry
    in array order, each at most once. *)
Theorem promo_tick_sends_one_pool_message_silently s :
  exists text outs s',
    promo_tick P cfg s = (Ok tt, s') /\
    In text PROMO_MESSAGES /\
    List.length outs = List.length (users s) /\
    sends (trace s') =
      (sends (trace s)
       ++ map (fun u => (telegram_id u, JStr text, promo_extra cfg u))
              (attempted (users s) outs))%list /\
    (forall u, disable_notification (promo_extra cfg u) = true).
Proof.
  unfold promo_tick, random_index, read_users, bind, ret.
  set (i := Math_random P (clock s) mod List.length PROMO_MESSAGES).
  assert (Hi : i < List.length PROMO_MESSAGES)
    by (apply Nat.mod_upper_bound; discriminate).
  destruct (promo_loop_run (JStr (nth i PROMO_MESSAGES "")) (users s)
              (advance s)) as (outs & s' & E & Len & Sd).
  exists (nth i PROMO_MESSAGES ""), outs, s'.
  cbn [users advance] in *. rewrite E.
  split; [reflexivity|]. split; [now apply nth_In|].
  split; [exact Len|]. split; [exact Sd|reflexivity].
Qed.

(** X17: the play link of the menu and the play link of a broadcast (or promo)
    keyboard are the same for a user exactly when [WEB_APP_URL] is set:
    unset, the menu links to [/?token=...] and the broadcast to
    [?token=...]. *)
Theorem play_link_agrees_iff_url_set u :
  (nth 0 (mainMenuInline cfg (token u)) []
   = nth 0 (inline_keyboard (broadcast_extra cfg u)) []
   <-> WEB_APP_URL cfg <> "") /\
  nth 0 (inline_keyboard (promo_extra cfg u)) []
  = nth 0 (inline_keyboard (broadcast_extra cfg u)) [].
Proof.
  split; [|reflexivity].
  unfold mainMenuInline, broadcast_extra. cbn [inline_keyboard nth].
  destruct (truthy_string (WEB_APP_URL cfg)) eqn:T.
  - split; [|reflexivity]. intros _ E.
    apply truthy_string_false in E. congruence.
  - apply truthy_string_false in T. rewrite T. simpl.
    split; [discriminate|]. intros N. now contradiction N.
Qed.

End BroadcastMore.

(* ------------------------------------------------------------------ *)
(** ** The access gate *)

Section GateFacts.

Variable P : Platform.
Variable cfg : Config.
Variable C : Chat.

(** The three handlers start alike: upsert, then the membership check,
    then a branch on its answer. *)
Lemma gate_run (k : User -> bool -> G unit) from g :
  (u <~ lift (addOrUpdateUser P from) ;;
   ok <~ lift (isMemberOfAllChannels P cfg (from_id from)) ;;
   k u ok) g
  = match addOrUpdateUser P from (proc g) with
    | (Ok u, s1) =>
        match isMemberOfAllChannels P cfg (from_id from) s1 with
        | (Ok b, s2) => k u b (mkGSt s2 (outbox g))
        | (Throw e, s2) => (Throw e, mkGSt s2 (outbox g))
        end
    | (Throw e, s1) => (Throw e, mkGSt s1 (outbox g))
    end.
Proof.
  unfold g_bind, lift.
  destruct (addOrUpdateUser P from (proc g)) as [[u|e] s1]; [|reflexivity].
  cbn [proc outbox].
  destruct (isMemberOfAllChannels P cfg (from_id from) s1) as [[b|e] s2];
    reflexivity.
Qed.

Lemma gate_keeps_users (k : User -> bool -> G unit) from g :
  (forall u b g0, users (proc (snd (k u b g0))) = users (proc g0)) ->
  users (proc (snd ((u <~ lift (addOrUpdateUser P from) ;;
                     ok <~ lift (isMemberOfAllChannels P cfg (from_id from)) ;;
                     k u ok) g)))
  = upserted_users P from (proc g).
Proof.
  intros K. rewrite gate_run.
  destruct (addOrUpdateUser_effect P from (proc g)) as (Hu & _).
  destruct (addOrUpdateUser P from (proc g)) as [[u|e] s1];
    cbn [snd] in Hu; [|exact Hu].
  destruct (isMember_effect P cfg (from_id from) s1)
    as (b & s2 & E & (U & _) & _).
  rewrite E, K. cbn [proc]. congruence.
Qed.

(** X18: every handler registers the sender before anything else: afterwards
    the registry holds the created or updated record of the sender, be the
    sender a member or not, and even if the handler raised. *)
Theorem handlers_register_the_sender from g :
  find_user (from_id from) (users (proc (snd (on_start P cfg C from g))))
    = Some (upserted_user P from (proc g)) /\
  find_user (from_id from) (users (proc (snd (on_menu P cfg C from g))))
    = Some (upserted_user P from (proc g)) /\
  find_user (from_id from) (users (proc (snd (on_check_subs P cfg C from g))))
    = Some (upserted_user P from (proc g)).
Proof.
  unfold on_start, on_menu, on_check_subs.
  repeat split;
    (rewrite gate_keeps_users; [apply find_upserted|]);
    intros u [|] g0; try reflexivity.
  unfold g_try, editMessageText, reply.
  destruct (ctx_editMessageText C _ _ _); reflexivity.
Qed.

Lemma play_links_app evs evs' :
  play_links (evs ++ evs') = (play_links evs ++ play_links evs')%list.
Proof. apply flat_map_app. Qed.

Lemma subscribe_buttons_no_play_link :
  play_links_of (subscribe_buttons cfg) = [].
Proof.
  unfold subscribe_buttons, play_links_of.
  rewrite concat_app, flat_map_app. simpl.
  induction (REQUIRED_CHANNELS cfg) as [|c chs IH]; simpl; auto.
Qed.

(** X19: no play link for a non-member: when the membership check made after
    the upsert answers [false], nothing a handler shows carries a web-app
    button, so the token is not disclosed. *)
Theorem handlers_withhold_play_link_from_non_member from g :
  fst (isMemberOfAllChannels P cfg (from_id from)
         (snd (addOrUpdateUser P from (proc g)))) = Ok false ->
  play_links (outbox (snd (on_start P cfg C from g)))
    = play_links (outbox g) /\
  play_links (outbox (snd (on_menu P cfg C from g)))
    = play_links (outbox g) /\
  play_links (outbox (snd (on_check_subs P cfg C from g)))
    = play_links (outbox g).
Proof.
  intros H. unfold on_start, on_menu, on_check_subs.
  rewrite !gate_run.
  destruct (addOrUpdateUser P from (proc g)) as [[u|e] s1]; cbn [snd] in H;
    [|auto].
  destruct (isMemberOfAllChannels P cfg (from_id from) s1) as [[b|e] s2];
    cbn [fst] in H; [|discriminate].
  injection H as ->.
  unfold reply, answerCbQuery. cbn [snd outbox].
  rewrite !play_links_app. simpl.
  rewrite subscribe_buttons_no_play_link. simpl.
  now rewrite !app_nil_r.
Qed.

(** X20: a member is shown the menu once, with the play link carrying the token
    the registry now stores for the sender; [/start] and [/menu] differ in
    the greeting only. *)
Theorem member_is_shown_menu_with_stored_token from g u s1 s2 :
  addOrUpdateUser P from (proc g) = (Ok u, s1) ->
  isMemberOfAllChannels P cfg (from_id from) s1 = (Ok true, s2) ->
  outbox (snd (on_start P cfg C from g)) =
    (outbox g ++ [CtxReply "Добро пожаловать! Меню:"
                           (mainMenuInline cfg (token u))])%list /\
  outbox (snd (on_menu P cfg C from g)) =
    (outbox g ++ [CtxReply "Меню:" (mainMenuInline cfg (token u))])%list /\
  option_map token
    (find_user (from_id from) (users (proc (snd (on_start P cfg C from g)))))
    = Some (token u).
Proof.
  intros E1 E2.
  assert (F : find_user (from_id from)
                (users (proc (snd (on_start P cfg C from g))))
              = Some (upserted_user P from (proc g)))
    by (unfold on_start; rewrite gate_keeps_users;
        [apply find_upserted|intros ? [|] ?; reflexivity]).
  rewrite F. clear F.
  destruct (addOrUpdateUser_effect P from (proc g)) as (_ & _ & Hr).
  rewrite E1 in Hr. cbn [fst] in Hr.
  destruct Hr as [Hr | [e Hr]]; [|discriminate]. injection Hr as <-.
  unfold on_start, on_menu. rewrite !gate_run, E1, E2.
  unfold reply. cbn [snd outbox]. auto.
Qed.

(** X21: the re-check: a member's prompt is edited into the menu and, only if
    the edit raises, the menu is sent as a new message instead; a
    non-member gets the notice and neither an edit nor a message. *)
Theorem check_subs_edits_then_falls_back from g u s1 b s2 :
  addOrUpdateUser P from (proc g) = (Ok u, s1) ->
  isMemberOfAllChannels P cfg (from_id from) s1 = (Ok b, s2) ->
  let menu := mainMenuInline cfg (token u) in
  let text := "Вы подписаны! Вот меню:" in
  outbox (snd (on_check_subs P cfg C from g)) =
    (outbox g
     ++ if b then
          match ctx_editMessageText C (clock s2) text menu with
          | Ok _ => [CtxEditMessageText text menu]
          | Throw _ => [CtxEditMessageText text menu; CtxReply text menu]
          end
        else [CtxAnswerCbQuery
                "Вы ещё не подписались на все указанные каналы."])%list /\
  fst (on_check_subs P cfg C from g) =
    if b then
      match ctx_editMessageText C (clock s2) text menu with
      | Ok _ => Ok tt
      | Throw _ => ctx_reply C (S (clock s2)) text menu
      end
    else ctx_answerCbQuery C (clock s2)
           "Вы ещё не подписались на все указанные каналы.".
Proof.
  intros E1 E2. cbv zeta.
  unfold on_check_subs. rewrite gate_run, E1, E2.
  unfold g_try, editMessageText, reply, answerCbQuery.
  destruct b; [|split; reflexivity].
  change (proc (mkGSt s2 (outbox g))) with s2.
  change (outbox (mkGSt s2 (outbox g))) with (outbox g).
  destruct (ctx_editMessageText C (clock s2) _ _) as [[]|e].
  - split; reflexivity.
  - cbn [snd fst outbox]. rewrite <- app_assoc. split; reflexivity.
Qed.

(** X22: a non-member is shown the subscribe prompt once: one row with one link
    per required channel, in order, then the re-check row; since the check
    failed there is at least one channel, so at least two rows. *)
Theorem non_member_is_shown_every_channel from g u s1 s2 :
  addOrUpdateUser P from (proc g) = (Ok u, s1) ->
  isMemberOfAllChannels P cfg (from_id from) s1 = (Ok false, s2) ->
  outbox (snd (on_start P cfg C from g)) =
    (outbox g
     ++ [CtxReply "Для доступа к боту необходимо подписаться на наши каналы:"
                  (subscribe_buttons cfg)])%list /\
  outbox (snd (on_menu P cfg C from g)) =
    (outbox g
     ++ [CtxReply "Пожалуйста, подпишитесь на наши каналы чтобы продолжить:"
                  (subscribe_buttons cfg)])%list /\
  List.length (subscribe_buttons cfg)
    = S (List.length (REQUIRED_CHANNELS cfg)) /\
  2 <= List.length (subscribe_buttons cfg) /\
  firstn (List.length (REQUIRED_CHANNELS cfg)) (subscribe_buttons cfg)
    = map (fun ch => [UrlButton ("Подписаться: " ++ ch)
                                ("https://t.me/" ++ remove_first_at ch)])
          (REQUIRED_CHANNELS cfg) /\
  last (subscribe_buttons cfg) []
    = [CallbackButton "Проверить подписку" "check_subs"].
Proof.
  intros E1 E2.
  assert (N : REQUIRED_CHANNELS cfg <> []).
  { intros R. unfold isMemberOfAllChannels in E2. rewrite R in E2.
    discriminate. }
  assert (L : List.length (subscribe_buttons cfg)
              = S (List.length (REQUIRED_CHANNELS cfg))).
  { unfold subscribe_buttons. rewrite length_app, length_map. simpl. lia. }
  unfold on_start, on_menu. rewrite !gate_run, E1, E2.
  unfold reply. cbn [snd outbox].
  split; [reflexivity|]. split; [reflexivity|]. split; [exact L|].
  split.
  { rewrite L. destruct (REQUIRED_CHANNELS cfg); [congruence|simpl; lia]. }
  unfold subscribe_buttons. split.
  - rewrite firstn_app, length_map, Nat.sub_diag. simpl.
    rewrite app_nil_r. apply firstn_all2. now rewrite length_map.
  - apply last_last.
Qed.

End GateFacts.

(* ------------------------------------------------------------------ *)
(** ** The list of required channels *)

Section ChannelListFacts.

Variable char : Type.
Variable is_comma : char -> bool.
Variable is_white : char -> bool.

Lemma split_commas_pieces_comma_free s :
  Forall (Forall (fun c => is_comma c = false)) (split_commas is_comma s).
Proof.
  induction s as [|c s IH]; simpl; [repeat constructor|].
  destruct (is_comma c) eqn:E; [constructor; auto|].
  destruct (split_commas is_comma s) as [|piece pieces];
    [repeat constructor; auto|].
  inversion IH; subst. constructor; auto.
Qed.

Lemma split_commas_pieces_keep (Q : char -> Prop) s :
  Forall Q s -> Forall (Forall Q) (split_commas is_comma s).
Proof.
  induction 1 as [|c s Hc Hs IH]; simpl; [repeat constructor|].
  destruct (is_comma c); [constructor; auto|].
  destruct (split_commas is_comma s) as [|piece pieces];
    [repeat constructor; auto|].
  inversion IH; subst. constructor; auto.
Qed.

Lemma trim_start_suffix s :
  exists pre, s = (pre ++ trim_start is_white s)%list.
Proof.
  induction s as [|c s [pre IH]]; simpl; [now exists []|].
  destruct (is_white c); [|now exists []].
  exists (c :: pre). simpl. now f_equal.
Qed.

Lemma trim_start_head s c :
  hd_error (trim_start is_white s) = Some c -> is_white c = false.
Proof.
  induction s as [|d s IH]; simpl; [discriminate|].
  destruct (is_white d) eqn:E; [exact IH|].
  simpl. intros H. now injection H as <-.
Qed.

Lemma trim_start_keeps (Q : char -> Prop) s :
  Forall Q s -> Forall Q (trim_start is_white s).
Proof.
  intros H. destruct (trim_start_suffix s) as [pre E].
  rewrite E in H. now apply Forall_app in H.
Qed.

Lemma trim_start_all_white s :
  Forall (fun c => is_white c = true) s -> trim_start is_white s = [].
Proof.
  induction 1 as [|c s Hc Hs IH]; simpl; [reflexivity|]. now rewrite Hc.
Qed.

Lemma trim_keeps (Q : char -> Prop) s :
  Forall Q s -> Forall Q (trim is_white s).
Proof.
  intros H. unfold trim.
  apply Forall_rev, trim_start_keeps, Forall_rev, trim_start_keeps, H.
Qed.

Lemma trim_last s c :
  hd_error (rev (trim is_white s)) = Some c -> is_white c = false.
Proof. unfold trim. rewrite rev_involutive. apply trim_start_head. Qed.

Lemma trim_head s c :
  hd_error (trim is_white s) = Some c -> is_white c = false.
Proof.
  unfold trim.
  destruct (trim_start_suffix (rev (trim_start is_white s))) as [pre E].
  set (r := trim_start is_white (rev (trim_start is_white s))) in *.
  apply (f_equal (@rev char)) in E.
  rewrite rev_involutive, rev_app_distr in E.
  intros H. apply (trim_start_head s). rewrite E.
  destruct (rev r); [discriminate|exact H].
Qed.

Lemma trim_all_white s :
  Forall (fun c => is_white c = true) s -> trim is_white s = [].
Proof.
  intros H. unfold trim. now rewrite (trim_start_all_white H).
Qed.

Lemma trim_clean name : clean is_comma is_white name -> trim is_white name = name.
Proof.
  intros (N & _ & Hh & Hl). unfold trim.
  assert (A : forall s, (forall c, hd_error s = Some c -> is_white c = false) ->
                        trim_start is_white s = s).
  { intros [|c s] H; [reflexivity|]. simpl. now rewrite (H c eq_refl). }
  rewrite (A name Hh), (A (rev name) Hl). apply rev_involutive.
Qed.

(** X23: what is read from [REQUIRED_CHANNELS] is always a list of usable
    names: none is empty, none contains a comma, none begins or ends with
    a code unit that [trim] strips. *)
Theorem parse_channels_yields_clean_names env :
  Forall (clean is_comma is_white) (parse_channels is_comma is_white env).
Proof.
  unfold parse_channels.
  set (raw := match env with Some (c :: s) => c :: s | _ => [] end).
  pose proof (split_commas_pieces_comma_free raw) as F.
  induction (split_commas is_comma raw) as [|piece pieces IH]; simpl;
    [constructor|].
  inversion F as [|? ? Fp Fr]; subst.
  destruct (non_empty (trim is_white piece)) eqn:E; [|auto].
  constructor; [|auto].
  repeat split.
  - intros Z. rewrite Z in E. discriminate.
  - now apply trim_keeps.
  - apply trim_head.
  - apply trim_last.
Qed.

(** X24: a variable that is unset, empty, or made only of commas and strippable
    code units gives no channel at all. *)
Theorem parse_channels_of_blank_is_empty env :
  match env with
  | Some raw => Forall (fun c => is_comma c = true \/ is_white c = true) raw
  | None => True
  end ->
  parse_channels is_comma is_white env = [].
Proof.
  intros H. unfold parse_channels.
  set (raw := match env with Some (c :: s) => c :: s | _ => [] end).
  assert (B : Forall (fun c => is_comma c = true \/ is_white c = true) raw).
  { subst raw. destruct env as [[|c s]|]; auto. }
  pose proof (split_commas_pieces_comma_free raw) as F.
  pose proof (split_commas_pieces_keep B) as K.
  induction (split_commas is_comma raw) as [|piece pieces IH]; simpl;
    [reflexivity|].
  inversion F as [|? ? Fp Fr]; inversion K as [|? ? Kp Kr]; subst.
  rewrite trim_all_white; [simpl; auto|].
  rewrite Forall_forall in *. intros c Hc.
  destruct (Kp c Hc) as [W|W]; [|exact W].
  rewrite (Fp c Hc) in W. discriminate.
Qed.

Lemma split_commas_comma_free name :
  Forall (fun c => is_comma c = false) name ->
  split_commas is_comma name = [name].
Proof.
  induction 1 as [|c s Hc Hs IH]; simpl; [reflexivity|].
  now rewrite Hc, IH.
Qed.

Lemma split_commas_app sep name rest :
  is_comma sep = true ->
  Forall (fun c => is_comma c = false) name ->
  split_commas is_comma (name ++ sep :: rest)
  = name :: split_commas is_comma rest.
Proof.
  intros S. induction 1 as [|c s Hc Hs IH]; simpl.
  - now rewrite S.
  - now rewrite Hc, IH.
Qed.

Lemma split_commas_join sep names :
  is_comma sep = true ->
  names <> [] ->
  Forall (clean is_comma is_white) names ->
  split_commas is_comma (join sep names) = names.
Proof.
  intros S N F. induction F as [|name more Hn Hm IH]; [congruence|].
  destruct more as [|name' more'].
  - simpl. apply split_commas_comma_free. apply Hn.
  - change (join sep (name :: name' :: more'))
      with (name ++ sep :: join sep (name' :: more'))%list.
    rewrite split_commas_app; [|exact S|apply Hn].
    f_equal. apply IH. discriminate.
Qed.

(** X25: write then read: usable names joined with commas are read back as
    they were, in order. *)
Theorem parse_channels_of_join sep names :
  is_comma sep = true ->
  Forall (clean is_comma is_white) names ->
  parse_channels is_comma is_white (Some (join sep names)) = names.
Proof.
  intros S F. unfold parse_channels.
  replace (match join sep names with c :: s => c :: s | [] => [] end)
    with (join sep names) by (now destruct (join sep names)).
  destruct names as [|n ns]; [reflexivity|].
  rewrite split_commas_join; [|exact S|discriminate|exact F].
  induction F as [|name more Hn Hm IH]; [reflexivity|].
  cbn [map filter]. rewrite (trim_clean Hn).
  destruct name as [|c name]; [now destruct Hn|].
  cbn [non_empty]. now rewrite IH.
Qed.

End ChannelListFacts.

(* ------------------------------------------------------------------ *)
(** ** The further theorems at work *)

(** [" mychannel, @sponsor1 ,,"] is read as two channels. *)
Example parse_channels_trims_and_drops_empty :
  map string_of_list_ascii
      (parse_channels ascii_comma ascii_white
         (Some (list_ascii_of_string " mychannel, @sponsor1 ,,")))
  = ["mychannel"; "@sponsor1"].
Proof. reflexivity. Qed.

(** Users 1 and 2 are known; users 4, 1 and 4 again write in. *)
Lemma upserts_keep_ids_distinct_witness :
  NoDup (map telegram_id (users (started [alice; bob] Missing))) /\
  NoDup (map telegram_id
           (users (run_upserts world [from_dave; from_alice; from_dave]
                     (started [alice; bob] Missing)))).
Proof.
  assert (H : NoDup (map telegram_id (users (started [alice; bob] Missing)))).
  { repeat constructor; simpl; intuition discriminate. }
  split; [exact H|].
  exact (@upserts_keep_ids_distinct world [from_dave; from_alice; from_dave]
           (started [alice; bob] Missing) H).
Defined.

(** User 4 is found right after the first contact. *)
Lemma upsert_then_find_witness :
  exists u s',
    addOrUpdateUser world from_dave (started [alice] Missing) = (Ok u, s') /\
    findUserById 4 s' = (Ok (Some u), s').
Proof.
  assert (E : exists u s',
             addOrUpdateUser world from_dave (started [alice] Missing)
               = (Ok u, s'))
    by (vm_compute; eauto).
  destruct E as (u & s' & E).
  exists u, s'. split; [exact E|].
  exact (@upsert_then_find world from_dave (started [alice] Missing) u s' E).
Defined.

(** User 1 writes in with an empty username and a new first name. *)
Lemma upsert_overwrites_only_with_non_empty_witness :
  find_user 1 (users (started [alice; bob] Missing)) = Some alice /\
  exists u,
    find_user 1
      (users (snd (addOrUpdateUser world
                     (mkFrom 1 (Some "") (Some "Alicia") None)
                     (started [alice; bob] Missing)))) = Some u /\
    telegram_id u = 1%Z /\
    token u = "00112233445566778899" /\
    username u = Some "alice" /\
    first_name u = Some "Alicia" /\
    last_name u = None.
Proof.
  split; [reflexivity|].
  exact (@upsert_overwrites_only_with_non_empty world
           (mkFrom 1 (Some "") (Some "Alicia") None)
           (started [alice; bob] Missing) alice eq_refl).
Defined.

(** After user 4's first contact the file holds both users. *)
Lemma upsert_success_persists_whole_array_witness :
  exists u s',
    addOrUpdateUser world from_dave (started [alice] Missing) = (Ok u, s') /\
    file s' = Content (JSON_stringify world (users s')) /\
    dir_exists s' = true /\
    writes (trace s') = ([] ++ [JSON_stringify world (users s')])%list.
Proof.
  assert (E : exists u s',
             addOrUpdateUser world from_dave (started [alice] Missing)
               = (Ok u, s'))
    by (vm_compute; eauto).
  destruct E as (u & s' & E).
  exists u, s'. split; [exact E|].
  exact (@upsert_success_persists_whole_array world from_dave
           (started [alice] Missing) u s' E).
Defined.

(** Written by user 4's first contact, read back at the next start. *)
Lemma upsert_then_loadUsers_witness :
  exists u s' v,
    addOrUpdateUser world_reading_back from_dave (started [alice] Missing)
      = (Ok u, s') /\
    JSON_parse world_reading_back
      (JSON_stringify world_reading_back (users s')) = Ok v /\
    loadUsers world_reading_back s' = (Ok v, s').
Proof.
  assert (E : exists u s',
             addOrUpdateUser world_reading_back from_dave
               (started [alice] Missing) = (Ok u, s') /\
             exists v, JSON_parse world_reading_back
                         (JSON_stringify world_reading_back (users s')) = Ok v)
    by (vm_compute; eauto).
  destruct E as (u & s' & E & v & J).
  exists u, s', v. split; [exact E|]. split; [exact J|].
  exact (@upsert_then_loadUsers world_reading_back from_dave
           (started [alice] Missing) u s' v E J).
Defined.

(** User 2 keeps the token while users 4 and 1 write in. *)
Lemma registry_never_forgets_witness :
  find_user 2 (users (started [alice; bob] Missing)) = Some bob /\
  exists u',
    find_user 2 (users (run_upserts world [from_dave; from_alice]
                          (started [alice; bob] Missing))) = Some u' /\
    token u' = token bob /\
    telegram_id u' = telegram_id bob.
Proof.
  split; [reflexivity|].
  exact (@registry_never_forgets world [from_dave; from_alice]
           (started [alice; bob] Missing) 2%Z bob eq_refl).
Defined.

(** A first start: no data directory, no file. *)
Lemma loadUsers_best_effort_witness :
  (dir_exists (mkSt [] false Missing [] 0) = true \/
   fs_mkdirSync world (clock (mkSt [] false Missing [] 0)) = Ok tt) /\
  exists s',
    loadUsers world (mkSt [] false Missing [] 0) = (Ok (JArr []), s') /\
    dir_exists s' = true /\
    file s' = Missing /\
    users s' = [] /\
    writes (trace s') = [].
Proof.
  assert (H : dir_exists (mkSt [] false Missing [] 0) = true \/
              fs_mkdirSync world (clock (mkSt [] false Missing [] 0)) = Ok tt)
    by (right; reflexivity).
  split; [exact H|].
  exact (@loadUsers_best_effort world (mkSt [] false Missing [] 0) H I).
Defined.

(** User 1 is a member of the three channels: three calls, [true]. *)
Lemma isMember_true_iff_every_check_passes_witness :
  (forall i c, nth_error (REQUIRED_CHANNELS config) i = Some c ->
     check_fails (tg_getChatMember world
                    (clock (started [alice] Missing) + i)
                    (channel_handle c) 1) = false) /\
  fst (isMemberOfAllChannels world config 1 (started [alice] Missing))
    = Ok true.
Proof.
  assert (H : forall i c, nth_error (REQUIRED_CHANNELS config) i = Some c ->
     check_fails (tg_getChatMember world
                    (clock (started [alice] Missing) + i)
                    (channel_handle c) 1) = false).
  { intros i c _. reflexivity. }
  split; [exact H|].
  exact (proj2 (proj1 (@isMember_true_iff_every_check_passes world config
                         1%Z (started [alice] Missing))) H).
Defined.

(** [mychannel] and [@mychannel] are checked alike. *)
Lemma check_channel_ignores_leading_at_witness :
  String.prefix "@" "mychannel" = false /\
  check_channel world_no_access ("@" ++ "mychannel") 1
    (started [alice] Missing)
  = check_channel world_no_access "mychannel" 1 (started [alice] Missing).
Proof.
  split; [reflexivity|].
  exact (@check_channel_ignores_leading_at world_no_access "mychannel" 1%Z
           (started [alice] Missing) eq_refl).
Defined.

(** [restricted] is documented and listed: the check passes. *)
Lemma documented_status_passes_iff_listed_witness :
  In "restricted"
     ["member"; "creator"; "administrator"; "restricted"; "left"; "kicked"] /\
  status_rejected (member_status (Some (mkChatMember (Some "restricted"))))
    = false /\
  check_fails (Ok (Some (mkChatMember (Some "restricted")))) = false.
Proof.
  assert (H : In "restricted"
                ["member"; "creator"; "administrator"; "restricted";
                 "left"; "kicked"])
    by (simpl; tauto).
  split; [exact H|].
  exact (@documented_status_passes_iff_listed "restricted" H).
Defined.

(** Without a parsed body the authorized request makes the handler raise;
    with one it is answered. *)
Lemma admin_broadcast_always_answers_witness :
  (authorized config bodyless_request /\
   req_body bodyless_request = BodyUndefined) /\
  admin_broadcast world config bodyless_request
    (started [bob; alice; carol] Missing)
    = (Throw cannot_destructure, started [bob; alice; carol] Missing) /\
  ~ (authorized config sale_request /\
     req_body sale_request = BodyUndefined) /\
  exists resp s',
    admin_broadcast world config sale_request
      (started [bob; alice; carol] Missing) = (Ok resp, s') /\
    (resp = mkResponse 403 (JObj [("error", JStr "forbidden")]) \/
     resp = mkResponse 400 (JObj [("error", JStr "text required")]) \/
     exists sent failed,
       resp = mkResponse 200
                (JObj [("ok", JBool true);
                       ("sent", JNum (Z.of_nat sent));
                       ("failed", JNum (Z.of_nat failed))]) /\
       sent + failed <= 3).
Proof.
  assert (H1 : authorized config bodyless_request /\
               req_body bodyless_request = BodyUndefined)
    by (split; [split; [discriminate|reflexivity]|reflexivity]).
  assert (H2 : ~ (authorized config sale_request /\
                  req_body sale_request = BodyUndefined))
    by (intros [_ H]; discriminate).
  split; [exact H1|].
  split; [exact (proj1 (@admin_broadcast_always_answers world config
                          bodyless_request
                          (started [bob; alice; carol] Missing)) H1)|].
  split; [exact H2|].
  exact (proj2 (@admin_broadcast_always_answers world config sale_request
                  (started [bob; alice; carol] Missing)) H2).
Defined.

(** The header token is the one of the open deployment too. *)
Lemma config_open_authorizes_header_token : authorized config_open sale_request.
Proof. split; [discriminate|reflexivity]. Defined.

(** No channel required: all three users are handed to the transport. *)
Lemma admin_broadcast_without_channels_reaches_all_witness :
  authorized config_open sale_request /\
  body_text (req_body sale_request) = Some (JStr "Sale!") /\
  truthy (JStr "Sale!") = true /\
  REQUIRED_CHANNELS config_open = [] /\
  exists sent failed s',
    admin_broadcast world config_open sale_request
      (started [bob; alice; carol] Missing)
      = (Ok (broadcast_ok sent failed), s') /\
    sent + failed = 3 /\
    sends (trace s') =
      ([] ++ map (fun u => (telegram_id u, JStr "Sale!",
                            broadcast_extra config_open u))
                 [bob; alice; carol])%list.
Proof.
  split; [exact config_open_authorizes_header_token|].
  split; [reflexivity|]. split; [reflexivity|]. split; [reflexivity|].
  exact (@admin_broadcast_without_channels_reaches_all world config_open
           sale_request (JStr "Sale!") (started [bob; alice; carol] Missing)
           config_open_authorizes_header_token eq_refl eq_refl eq_refl).
Defined.

(** The scenario of the three users: one failure, one line. *)
Lemma admin_broadcast_logs_each_failure_witness :
  authorized config sale_request /\
  body_text (req_body sale_request) = Some (JStr "Sale!") /\
  truthy (JStr "Sale!") = true /\
  exists outs s',
    pass world config (JStr "Sale!") [bob; alice; carol]
         (started [bob; alice; carol] Missing) outs s' /\
    admin_broadcast world config sale_request
      (started [bob; alice; carol] Missing)
      = (Ok (broadcast_ok (tally Sent outs) (tally Failed outs)), s') /\
    logged_failures (trace s') =
      ([] ++ map telegram_id
                 (with_outcome Failed [bob; alice; carol] outs))%list /\
    List.length (with_outcome Failed [bob; alice; carol] outs)
      = tally Failed outs /\
    incl (with_outcome Failed [bob; alice; carol] outs) [bob; alice; carol].
Proof.
  split; [exact config_authorizes_header_token|].
  split; [reflexivity|]. split; [reflexivity|].
  exact (@admin_broadcast_logs_each_failure world config sale_request
           (JStr "Sale!") (started [bob; alice; carol] Missing)
           config_authorizes_header_token eq_refl eq_refl).
Defined.

(** There, the one line written names user 2. *)
Example broadcast_logs_the_blocked_user :
  logged_failures
    (trace (snd (admin_broadcast world config sale_request
                   (started [bob; alice; carol] Missing)))) = [2%Z].
Proof. vm_compute. reflexivity. Qed.

(** With [WEB_APP_URL] set the two play links of user 1 are one. *)
Lemma play_link_agrees_iff_url_set_witness :
  WEB_APP_URL config <> "" /\
  nth 0 (mainMenuInline config (token alice)) []
  = nth 0 (inline_keyboard (broadcast_extra config alice)) [].
Proof.
  assert (H : WEB_APP_URL config <> "") by discriminate.
  split; [exact H|].
  exact (proj2 (proj1 (@play_link_agrees_iff_url_set config alice)) H).
Defined.

(** Unset, they differ. *)
Example play_link_differs_without_url :
  nth 0 (mainMenuInline config_no_url (token alice)) []
    = [WebAppButton "Играть" "/?token=00112233445566778899"] /\
  nth 0 (inline_keyboard (broadcast_extra config_no_url alice)) []
    = [WebAppButton "Играть" "?token=00112233445566778899"].
Proof. split; reflexivity. Qed.

(** User 3, who left, asks for the menu. *)
Lemma handlers_withhold_play_link_from_non_member_witness :
  fst (isMemberOfAllChannels world config (from_id from_carol)
         (snd (addOrUpdateUser world from_carol
                 (proc (arrived [alice; carol]))))) = Ok false /\
  play_links (outbox (snd (on_start world config chat_no_edit from_carol
                             (arrived [alice; carol])))) = [] /\
  play_links (outbox (snd (on_menu world config chat_no_edit from_carol
                             (arrived [alice; carol])))) = [] /\
  play_links (outbox (snd (on_check_subs world config chat_no_edit from_carol
                             (arrived [alice; carol])))) = [].
Proof.
  assert (H : fst (isMemberOfAllChannels world config (from_id from_carol)
                     (snd (addOrUpdateUser world from_carol
                             (proc (arrived [alice; carol]))))) = Ok false)
    by (vm_compute; reflexivity).
  split; [exact H|].
  exact (@handlers_withhold_play_link_from_non_member world config
           chat_no_edit from_carol (arrived [alice; carol]) H).
Defined.

(** User 1, a member, sends [/start]. *)
Lemma member_is_shown_menu_with_stored_token_witness :
  exists u s1 s2,
    addOrUpdateUser world from_alice (proc (arrived [alice; carol]))
      = (Ok u, s1) /\
    isMemberOfAllChannels world config (from_id from_alice) s1
      = (Ok true, s2) /\
    outbox (snd (on_start world config chat_no_edit from_alice
                   (arrived [alice; carol]))) =
      ([] ++ [CtxReply "Добро пожаловать! Меню:"
                       (mainMenuInline config (token u))])%list /\
    outbox (snd (on_menu world config chat_no_edit from_alice
                   (arrived [alice; carol]))) =
      ([] ++ [CtxReply "Меню:" (mainMenuInline config (token u))])%list /\
    option_map token
      (find_user 1 (users (proc (snd (on_start world config chat_no_edit
                                        from_alice (arrived [alice; carol]))))))
      = Some (token u).
Proof.
  assert (E : exists u s1,
             addOrUpdateUser world from_alice (proc (arrived [alice; carol]))
               = (Ok u, s1) /\
             exists s2, isMemberOfAllChannels world config
                          (from_id from_alice) s1 = (Ok true, s2))
    by (vm_compute; eauto).
  destruct E as (u & s1 & E1 & s2 & E2).
  exists u, s1, s2. split; [exact E1|]. split; [exact E2|].
  exact (@member_is_shown_menu_with_stored_token world config chat_no_edit
           from_alice (arrived [alice; carol]) u s1 s2 E1 E2).
Defined.

(** User 1 presses the re-check button under a message that can no longer
    be edited: the menu arrives as a new message. *)
Lemma check_subs_edits_then_falls_back_witness :
  exists u s1 s2,
    addOrUpdateUser world from_alice (proc (arrived [alice; carol]))
      = (Ok u, s1) /\
    isMemberOfAllChannels world config (from_id from_alice) s1
      = (Ok true, s2) /\
    outbox (snd (on_check_subs world config chat_no_edit from_alice
                   (arrived [alice; carol]))) =
      [CtxEditMessageText "Вы подписаны! Вот меню:"
                          (mainMenuInline config (token u));
       CtxReply "Вы подписаны! Вот меню:" (mainMenuInline config (token u))] /\
    fst (on_check_subs world config chat_no_edit from_alice
           (arrived [alice; carol])) = Ok tt.
Proof.
  assert (E : exists u s1,
             addOrUpdateUser world from_alice (proc (arrived [alice; carol]))
               = (Ok u, s1) /\
             exists s2, isMemberOfAllChannels world config
                          (from_id from_alice) s1 = (Ok true, s2))
    by (vm_compute; eauto).
  destruct E as (u & s1 & E1 & s2 & E2).
  exists u, s1, s2. split; [exact E1|]. split; [exact E2|].
  exact (@check_subs_edits_then_falls_back world config chat_no_edit
           from_alice (arrived [alice; carol]) u s1 true s2 E1 E2).
Defined.

(** User 3 sends [/start]: three links and the re-check button. *)
Lemma non_member_is_shown_every_channel_witness :
  exists u s1 s2,
    addOrUpdateUser world from_carol (proc (arrived [alice; carol]))
      = (Ok u, s1) /\
    isMemberOfAllChannels world config (from_id from_carol) s1
      = (Ok false, s2) /\
    outbox (snd (on_start world config chat_no_edit from_carol
                   (arrived [alice; carol]))) =
      ([] ++ [CtxReply
                "Для доступа к боту необходимо подписаться на наши каналы:"
                (subscribe_buttons config)])%list /\
    List.length (subscribe_buttons config) = 4 /\
    2 <= List.length (subscribe_buttons config).
Proof.
  assert (E : exists u s1,
             addOrUpdateUser world from_carol (proc (arrived [alice; carol]))
               = (Ok u, s1) /\
             exists s2, isMemberOfAllChannels world config
                          (from_id from_carol) s1 = (Ok false, s2))
    by (vm_compute; eauto).
  destruct E as (u & s1 & E1 & s2 & E2).
  exists u, s1, s2. split; [exact E1|]. split; [exact E2|].
  destruct (@non_member_is_shown_every_channel world config chat_no_edit
              from_carol (arrived [alice; carol]) u s1 s2 E1 E2)
    as (A & _ & L & T & _).
  split; [exact A|]. split; [exact L|exact T].
Defined.

(** A variable holding blanks and commas only. *)
Lemma parse_channels_of_blank_is_empty_witness :
  Forall (fun c => ascii_comma c = true \/ ascii_white c = true)
         (list_ascii_of_string " , ,, ") /\
  parse_channels ascii_comma ascii_white
    (Some (list_ascii_of_string " , ,, ")) = [].
Proof.
  assert (H : Forall (fun c => ascii_comma c = true \/ ascii_white c = true)
                     (list_ascii_of_string " , ,, ")).
  { repeat constructor; ((left; reflexivity) || (right; reflexivity)). }
  split; [exact H|].
  exact (@parse_channels_of_blank_is_empty ascii ascii_comma ascii_white
           (Some (list_ascii_of_string " , ,, ")) H).
Defined.

(** [mychannel] and [@sponsor1] are usable names. *)
Lemma sample_names_clean :
  Forall (clean ascii_comma ascii_white)
         [list_ascii_of_string "mychannel"; list_ascii_of_string "@sponsor1"].
Proof.
  repeat constructor; try discriminate;
    intros c H; injection H as <-; reflexivity.
Defined.

(** Joined with a comma, they are read back. *)
Lemma parse_channels_of_join_witness :
  ascii_comma "," = true /\
  Forall (clean ascii_comma ascii_white)
         [list_ascii_of_string "mychannel"; list_ascii_of_string "@sponsor1"] /\
  parse_channels ascii_comma ascii_white
    (Some (list_ascii_of_string "mychannel,@sponsor1"))
  = [list_ascii_of_string "mychannel"; list_ascii_of_string "@sponsor1"].
Proof.
  split; [reflexivity|]. split; [exact sample_names_clean|].
  exact (@parse_channels_of_join ascii ascii_comma ascii_white ","%char
           [list_ascii_of_string "mychannel"; list_ascii_of_string "@sponsor1"]
           eq_refl sample_names_clean).
Defined.
